(** * The authorization interceptor of the frontend RPC server

    A shallow embedding of [common/authorization/interceptor.go]: the unary
    gRPC interceptor that gathers identity evidence (mTLS certificate subject,
    authorization headers), has a pluggable claim mapper turn it into claims,
    asks a pluggable authorizer for a decision and either forwards the call to
    its handler or rejects it with a permission-denied error.

    The interceptor is effectful: it calls collaborators that live outside of
    it (claim mapper, audience getter, authorizer, the forwarded handler), it
    logs and it records metrics.  The embedding threads an abstract [World]
    through every collaborator call and collects the observable events of one
    call in a trace.  Go's run-time panics (index out of range, method call on
    a nil interface) are an explicit outcome, so that their absence is a
    theorem and not an artefact of pattern matching. *)

From Stdlib Require Import ZArith List.
From stdpp Require Import base option strings gmap list.

Local Open Scope string_scope.
Local Open Scope list_scope.

(** ** Outcomes of Go code that may panic *)

Inductive outcome (A : Type) : Type :=
| Done (a : A)
| Panicked (why : string).

Arguments Done {A} a.
Arguments Panicked {A} why.

Definition obind {A B} (o : outcome A) (f : A -> outcome B) : outcome B :=
  match o with
  | Done a => f a
  | Panicked why => Panicked why
  end.

(** [l[i]] on a slice: Go checks the bound and panics outside of it. *)
Definition index {A} (l : list A) (i : nat) : outcome A :=
  match l !! i with
  | Some x => Done x
  | None => Panicked "index out of range"
  end.

(** ** Transport-level data the interceptor reads

    [crypto/x509], [crypto/tls] and the gRPC [credentials], [peer] and
    [metadata] packages are libraries; only the fields that the interceptor
    touches are kept. *)

(** [pkix.Name], the distinguished name of a certificate. *)
Record Name := {
  CommonName : string;
  Organization : list string
}.

(** [x509.Certificate]. *)
Record Certificate := {
  Subject : Name;
  Issuer : Name
}.

(** [tls.ConnectionState]: [VerifiedChains] is a [[][]*x509.Certificate];
    a [nil] pointer inside a chain is [None]. *)
Record ConnectionState := {
  ServerName : string;
  VerifiedChains : list (list (option Certificate))
}.

(** [credentials.TLSInfo]. *)
Record TLSInfo := {
  State : ConnectionState
}.

(** The dynamic value of the [credentials.AuthInfo] interface of a peer:
    a [credentials.TLSInfo] or a value of some other type. *)
Inductive peerAuthInfo :=
| TLSAuthInfo (tlsInfo : TLSInfo)
| OtherAuthInfo (authType : string).

(** [peer.Peer]; its [AuthInfo] field is an interface and may be [nil]. *)
Record Peer := {
  Addr : string;
  PeerAuthInfo : option peerAuthInfo
}.

(** [metadata.MD] is a [map[string][]string]. *)
Abbreviation MD := (gmap string (list string)).

(** [md[k]]: a missing key reads as the [nil] slice. *)
Definition md_index (md : MD) (k : string) : list string :=
  default [] (md !! k).

(** The dynamic value of an [interface{}] holding a request or a response:
    [nil], or a message together with what its [GetNamespace] method returns
    when its type has one (the [hasNamespace] interface). *)
Record Message := {
  TypeName : string;
  Content : string;
  NamespaceMethod : option string
}.

Abbreviation any := (option Message).

(** [req.(hasNamespace)] followed by [GetNamespace()]: the namespace the
    request exposes, [None] when the type assertion fails. *)
Definition as_hasNamespace (req : any) : option string :=
  match req with
  | Some m => NamespaceMethod m
  | None => None
  end.

(** [grpc.UnaryServerInfo]. *)
Record UnaryServerInfo := {
  Server : any;
  FullMethod : string
}.

(** Go's [error] values that occur here: the [serviceerror.PermissionDenied]
    the interceptor builds, and whatever else a collaborator returns. *)
Inductive error :=
| PermissionDenied (message reason : string)
| OtherError (text : string).

Definition NewPermissionDenied (message reason : string) : error :=
  PermissionDenied message reason.

Definition RequestUnauthorized : string := "Request unauthorized.".
Definition defaultAuthHeaderName : string := "authorization".
Definition defaultAuthExtraHeaderName : string := "authorization-extras".

Definition errUnauthorized : error := NewPermissionDenied RequestUnauthorized "".

(** ** Peer evidence *)

(** [PeerCert], with the three tests of its guard evaluated left to right
    as Go's short-circuit [||] does and every subscript bound-checked. *)
Definition PeerCert (tlsInfo : option TLSInfo) : outcome (option Certificate) :=
  match tlsInfo with
  | None => Done None
  | Some t =>
      if (length (VerifiedChains (State t)) =? 0)%nat then Done None
      else
        obind (index (VerifiedChains (State t)) 0) (fun chain =>
        if (length chain =? 0)%nat then Done None
        else
          obind (index (VerifiedChains (State t)) 0) (fun chain0 =>
          index chain0 0))
  end.

(** ** The authorization data model

    [Claims], [AuthInfo], [CallTarget], [Result], the [ClaimMapper] and
    [Authorizer] interfaces and the metrics package are declared in files of
    the repository other than the interceptor's.  What the interceptor does
    with them fixes their shape here; [Claims] stays abstract. *)

Section Model.

Variable World : Type.
Variable Claims : Type.

(** Modelled from the spec: [AuthInfo], the evidence bundle handed to the
    claim mapper, with the fields the interceptor fills in. *)
Record AuthInfo := {
  AuthToken : string;
  TLSSubject : option Name;
  TLSConnection : option TLSInfo;
  ExtraData : string;
  Audience : string
}.

(** Modelled from the spec: [CallTarget], the authorization question, with
    the fields the interceptor fills in. *)
Record CallTarget := {
  Namespace : string;
  APIName : string;
  Request : any
}.

(** Modelled from the spec: the [Decision] enumeration of the authorizer's
    file, "enumerated: Allow, Deny". *)
Inductive decision :=
| DecisionDeny
| DecisionAllow.

(** Modelled from the spec: [Result], the authorization outcome, "Decision
    (enumerated: Allow, Deny), Reason (human-readable explanation)". *)
Record Result := {
  Decision : decision;
  Reason : string
}.

(** *** The per-call context

    [context.Context] as far as the interceptor is concerned: the incoming
    gRPC metadata and the peer, both optional, and the chain of values that
    [context.WithValue] builds, the most recent binding first. *)

Inductive contextKey :=
| MappedClaims
| AuthHeader
| OtherKey (name : string).

Inductive contextValue :=
| ClaimsValue (claims : option Claims)
| StringValue (s : string).

Record Ctx := {
  incomingMD : option MD;
  ctxPeer : option Peer;
  values : list (contextKey * contextValue)
}.

#[global] Instance contextKey_eq_dec : EqDecision contextKey.
Proof. solve_decision. Defined.

Definition WithValue (ctx : Ctx) (k : contextKey) (v : contextValue) : Ctx :=
  {| incomingMD := incomingMD ctx;
     ctxPeer := ctxPeer ctx;
     values := (k, v) :: values ctx |}.

Fixpoint lookupValue (vs : list (contextKey * contextValue)) (k : contextKey)
  : option contextValue :=
  match vs with
  | [] => None
  | (k', v) :: rest => if decide (k' = k) then Some v else lookupValue rest k
  end.

(** [ctx.Value(k)]; [None] is the [nil] interface of an unbound key. *)
Definition Value (ctx : Ctx) (k : contextKey) : option contextValue :=
  lookupValue (values ctx) k.

Definition FromIncomingContext (ctx : Ctx) : option MD := incomingMD ctx.

(** [if md, ok := metadata.FromIncomingContext(ctx); ok { hs = md[name] }]:
    the values of a header, the [nil] slice without metadata. *)
Definition incomingHeader (ctx : Ctx) (name : string) : list string :=
  match FromIncomingContext ctx with
  | Some md => md_index md name
  | None => []
  end.

(** [peer.FromContext]: the transport stores a non-[nil] peer. *)
Definition peer_FromContext (ctx : Ctx) : option Peer := ctxPeer ctx.

Definition TLSInfoFormContext (ctx : Ctx) : option TLSInfo :=
  match peer_FromContext ctx with
  | None => None
  | Some p =>
      match PeerAuthInfo p with
      | Some (TLSAuthInfo tlsInfo) => Some tlsInfo
      | _ => None
      end
  end.

(** *** Metrics

    Modelled from the spec: the metrics package ("[WithTags(operation,
    namespace-or-unknown) -> scoped handle]; scoped handle exposes counter
    increment and timer/duration recording").  A handle is the list of tags
    it was scoped with; a metric is named by its definition. *)

Inductive Tag :=
| OperationTag (operation : string)
| NamespaceTag (namespace : string)
| NamespaceUnknownTag.

Inductive metricDefinition :=
| ServiceErrAuthorizeFailedCounter
| ServiceErrUnauthorizedCounter
| ServiceAuthorizationLatency.

Record Handler := {
  tags : list Tag
}.

Definition WithTags (h : Handler) (ts : list Tag) : Handler :=
  {| tags := tags h ++ ts |}.

(** [metrics.AuthorizationScope], the operation name of the metrics. *)
Variable AuthorizationScope : string.

Record Logger := {
  loggerName : string
}.

(** *** Collaborators

    Modelled from the spec: the [ClaimMapper] and [Authorizer] interfaces
    ("[GetClaims(AuthInfo) -> (Claims, error)]", "[Authorize(context, *Claims,
    *CallTarget) -> (Result, error)]"); [JWTAudienceMapper] is the
    interceptor's own.  Every call into a collaborator may read and change
    the world; [AuthInfoRequired] is the optional
    [ClaimMapperWithAuthInfoRequired] capability of a mapper. *)

Record ClaimMapper := {
  GetClaims : AuthInfo -> World -> (option Claims * option error) * World;
  AuthInfoRequired : option (World -> bool * World)
}.

Record Authorizer := {
  Authorize : Ctx -> option Claims -> CallTarget -> World ->
              (Result * option error) * World
}.

Record JWTAudienceMapper := {
  AudienceOf : Ctx -> any -> UnaryServerInfo -> World -> string * World
}.

Definition UnaryHandler : Type :=
  Ctx -> any -> World -> (any * option error) * World.

Record interceptor := {
  authorizer : option Authorizer;
  claimMapper : option ClaimMapper;
  metricsHandler : Handler;
  logger : Logger;
  audienceGetter : option JWTAudienceMapper;
  authHeaderName : string;
  authExtraHeaderName : string
}.

(** *** Observable events of one call, in the order they happen *)

Inductive Event :=
| EvAuthInfoRequired (ret : bool)
| EvAudience (ctx : Ctx) (req : any) (info : UnaryServerInfo) (ret : string)
| EvGetClaims (authInfo : AuthInfo) (ret : option Claims * option error)
| EvLogError (l : Logger) (msg : string) (err : error)
| EvAuthorize (ctx : Ctx) (claims : option Claims) (target : CallTarget)
              (ret : Result * option error)
| EvTimer (h : Handler) (metric : metricDefinition)
| EvCounter (h : Handler) (metric : metricDefinition) (v : Z)
| EvHandler (ctx : Ctx) (req : any) (ret : any * option error).

(** *** The monad of the interceptor: world, trace and panics *)

Definition M (A : Type) : Type := World -> outcome A * World * list Event.

Definition ret {A} (a : A) : M A := fun w => (Done a, w, []).

Definition bind {A B} (m : M A) (f : A -> M B) : M B := fun w =>
  match m w with
  | (Done a, w1, t1) =>
      match f a w1 with
      | (r, w2, t2) => (r, w2, t1 ++ t2)
      end
  | (Panicked why, w1, t1) => (Panicked why, w1, t1)
  end.

Definition lift {A} (o : outcome A) : M A := fun w => (o, w, []).

Definition emit (e : Event) : M unit := fun w => (Done tt, w, [e]).

(** A collaborator call: run it on the world and record it with its result. *)
Definition call {A} (f : World -> A * World) (ev : A -> Event) : M A := fun w =>
  match f w with
  | (a, w1) => (Done a, w1, [ev a])
  end.

Notation "'let*' x := m 'in' k" := (bind m (fun x => k))
  (at level 10, x name, m at level 100, k at level 200).
Notation "m ;; k" := (bind m (fun _ => k))
  (at level 100, k at level 200, right associativity).

(** ** The interceptor *)

Definition logAuthError (a : interceptor) (err : error) : M unit :=
  emit (EvLogError (logger a) "Authorization error" err).

(** [getMetricsHandler]: the handle tagged with the operation and the
    namespace, or the unknown-namespace tag for the empty namespace. *)
Definition getMetricsHandler (a : interceptor) (operation namespace : string)
  : Handler :=
  if bool_decide (namespace <> "")
  then WithTags (metricsHandler a)
         [OperationTag operation; NamespaceTag namespace]
  else WithTags (metricsHandler a)
         [OperationTag operation; NamespaceUnknownTag].

(** [authorize]: the authorizer's verdict; the deferred function records the
    latency timer when the call returns (the measured duration is wall-clock
    time and is not part of the event). *)
Definition authorize (a : interceptor) (ctx : Ctx) (claims : option Claims)
    (callTarget : CallTarget) (mh : Handler) : M (Result * option error) :=
  match authorizer a with
  | None => lift (Panicked "nil pointer dereference")
  | Some az =>
      let* r := call (Authorize az ctx claims callTarget)
                (EvAuthorize ctx claims callTarget) in
      emit (EvTimer mh ServiceAuthorizationLatency) ;;
      ret r
  end.

(** The first block of [Interceptor] ([if a.claimMapper != nil &&
    a.authorizer != nil { ... }]).  It either returns from [Interceptor]
    ([inl], the returned pair) or falls through with the claims and the
    context that the rest of the function uses ([inr]). *)
Definition mapClaimsBlock (a : interceptor) (ctx : Ctx) (req : any)
    (info : UnaryServerInfo)
  : M ((any * option error) + (option Claims * Ctx)) :=
  match claimMapper a, authorizer a with
  | Some cm, Some _ =>
      let authHeaders := incomingHeader ctx (authHeaderName a) in
      let authExtraHeaders := incomingHeader ctx (authExtraHeaderName a) in
      let tlsConnection := TLSInfoFormContext ctx in
      let* clientCert := lift (PeerCert tlsConnection) in
      let tlsSubject :=
        match clientCert with
        | Some cert => Some (Subject cert)
        | None => None
        end in
      let* authInfoRequired :=
        match AuthInfoRequired cm with
        | Some f => call f EvAuthInfoRequired
        | None => ret true
        end in
      if bool_decide (tlsSubject <> None)
         || (0 <? length authHeaders)%nat
         || negb authInfoRequired
      then
        let* authHeader :=
          (if (0 <? length authHeaders)%nat
           then lift (index authHeaders 0) else ret "") in
        let* authExtraHeader :=
          (if (0 <? length authExtraHeaders)%nat
           then lift (index authExtraHeaders 0) else ret "") in
        let* audience :=
          match audienceGetter a with
          | Some g => call (AudienceOf g ctx req info) (EvAudience ctx req info)
          | None => ret ""
          end in
        let authInfo :=
          {| AuthToken := authHeader;
             TLSSubject := tlsSubject;
             TLSConnection := tlsConnection;
             ExtraData := authExtraHeader;
             Audience := audience |} in
        let* r := call (GetClaims cm authInfo) (EvGetClaims authInfo) in
        match r with
        | (_, Some err) =>
            logAuthError a err ;;
            ret (inl (None, Some errUnauthorized))
        | (mappedClaims, None) =>
            let ctx1 := WithValue ctx MappedClaims (ClaimsValue mappedClaims) in
            let ctx2 :=
              if bool_decide (authHeader <> "")
              then WithValue ctx1 AuthHeader (StringValue authHeader)
              else ctx1 in
            ret (inr (mappedClaims, ctx2))
        end
      else ret (inr (None, ctx))
  | _, _ => ret (inr (None, ctx))
  end.

(** The second block of [Interceptor] ([if a.authorizer != nil { ... }]):
    [Some] is the pair [Interceptor] returns from inside the block, [None]
    falls through to the handler. *)
Definition authorizeBlock (a : interceptor) (ctx : Ctx)
    (claims : option Claims) (req : any) (info : UnaryServerInfo)
  : M (option (any * option error)) :=
  match authorizer a with
  | Some _ =>
      let namespace :=
        match as_hasNamespace req with
        | Some ns => ns
        | None => ""
        end in
      let handler := getMetricsHandler a AuthorizationScope namespace in
      let* r := authorize a ctx claims
             {| Namespace := namespace;
                APIName := FullMethod info;
                Request := req |} handler in
      match r with
      | (_, Some err) =>
          emit (EvCounter handler ServiceErrAuthorizeFailedCounter 1) ;;
          logAuthError a err ;;
          ret (Some (None, Some errUnauthorized))
      | (result, None) =>
          match Decision result with
          | DecisionAllow => ret None
          | _ =>
              emit (EvCounter handler ServiceErrUnauthorizedCounter 1) ;;
              if bool_decide (Reason result <> "")
              then ret (Some (None, Some (NewPermissionDenied
                                            RequestUnauthorized
                                            (Reason result))))
              else ret (Some (None, Some errUnauthorized))
          end
      end
  | None => ret None
  end.

(** [Interceptor]: the two blocks, then the forwarded handler. *)
Definition Interceptor (a : interceptor) (ctx : Ctx) (req : any)
    (info : UnaryServerInfo) (handler : UnaryHandler)
  : M (any * option error) :=
  let* r1 := mapClaimsBlock a ctx req info in
  match r1 with
  | inl rejected => ret rejected
  | inr (claims, ctx') =>
      let* r2 := authorizeBlock a ctx' claims req info in
      match r2 with
      | Some rejected => ret rejected
      | None => call (handler ctx' req) (EvHandler ctx' req)
      end
  end.

(** Modelled from the spec: [util.Coalesce] on two strings, a header name
    "falling back to a fixed default when unset". *)
Definition Coalesce (x y : string) : string :=
  if bool_decide (x <> "") then x else y.

(** [NewAuthorizationInterceptor] builds the interceptor whose
    [Interceptor] method it returns. *)
Definition NewAuthorizationInterceptor (cm : option ClaimMapper)
    (az : option Authorizer) (mh : Handler) (l : Logger)
    (ag : option JWTAudienceMapper)
    (authHeaderName' authExtraHeaderName' : string) : interceptor :=
  {| claimMapper := cm;
     authorizer := az;
     metricsHandler := mh;
     logger := l;
     audienceGetter := ag;
     authHeaderName := Coalesce authHeaderName' defaultAuthHeaderName;
     authExtraHeaderName :=
       Coalesce authExtraHeaderName' defaultAuthExtraHeaderName |}.

End Model.

Arguments ClaimsValue {Claims} claims.
Arguments StringValue {Claims} s.
Arguments Build_Ctx {Claims} incomingMD ctxPeer values.
Arguments incomingMD {Claims} c.
Arguments ctxPeer {Claims} c.
Arguments values {Claims} c.
Arguments WithValue {Claims} ctx k v.
Arguments lookupValue {Claims} vs k.
Arguments Value {Claims} ctx k.
Arguments FromIncomingContext {Claims} ctx.
Arguments incomingHeader {Claims} ctx name.
Arguments peer_FromContext {Claims} ctx.
Arguments TLSInfoFormContext {Claims} ctx.
Arguments Build_ClaimMapper {World Claims} GetClaims AuthInfoRequired.
Arguments GetClaims {World Claims} c _ _.
Arguments AuthInfoRequired {World Claims} c.
Arguments Build_Authorizer {World Claims} Authorize.
Arguments Authorize {World Claims} a _ _ _ _.
Arguments Build_JWTAudienceMapper {World Claims} AudienceOf.
Arguments AudienceOf {World Claims} j _ _ _ _.
Arguments Build_interceptor {World Claims} authorizer claimMapper
  metricsHandler logger audienceGetter authHeaderName authExtraHeaderName.
Arguments authorizer {World Claims} i.
Arguments claimMapper {World Claims} i.
Arguments metricsHandler {World Claims} i.
Arguments logger {World Claims} i.
Arguments audienceGetter {World Claims} i.
Arguments authHeaderName {World Claims} i.
Arguments authExtraHeaderName {World Claims} i.
Arguments EvAuthInfoRequired {Claims} ret.
Arguments EvAudience {Claims} ctx req info ret.
Arguments EvGetClaims {Claims} authInfo ret.
Arguments EvLogError {Claims} l msg err.
Arguments EvAuthorize {Claims} ctx claims target ret.
Arguments EvTimer {Claims} h metric.
Arguments EvCounter {Claims} h metric v.
Arguments EvHandler {Claims} ctx req ret.
Arguments ret {World Claims A} a _.
Arguments bind {World Claims A B} m f _.
Arguments lift {World Claims A} o _.
Arguments emit {World Claims} e _.
Arguments call {World Claims A} f ev _.
Arguments logAuthError {World Claims} a err _.
Arguments getMetricsHandler {World Claims} a operation namespace.
Arguments authorize {World Claims} a ctx claims callTarget mh _.
Arguments mapClaimsBlock {World Claims} a ctx req info _.
Arguments authorizeBlock {World Claims} AuthorizationScope a ctx claims req info _.
Arguments Interceptor {World Claims} AuthorizationScope a ctx req info handler _.
Arguments NewAuthorizationInterceptor {World Claims} cm az mh l ag
  authHeaderName' authExtraHeaderName'.

(** ** Reading the evidence and the trace

    The notions the properties below are stated with. *)

(** The leaf of the first verified chain, by cases on the chains. *)
Definition leafOfFirstChain (tlsInfo : option TLSInfo) : option Certificate :=
  match tlsInfo with
  | None => None
  | Some t =>
      match VerifiedChains (State t) with
      | (cert :: _) :: _ => cert
      | _ => None
      end
  end.

(** What the claim mapper declares about authentication evidence in a given
    world: the answer of its [AuthInfoRequired] method, required when it has
    none. *)
Definition declaresRequired {World Claims} (cm : ClaimMapper World Claims)
    (w : World) : bool :=
  match AuthInfoRequired cm with
  | Some f => fst (f w)
  | None => true
  end.

(** The test that guards claim mapping: a certificate subject, a value of
    the primary header, or a mapper that does without evidence. *)
Definition mappingDue {World Claims} (a : interceptor World Claims)
    (ctx : Ctx Claims) (w : World) : Prop :=
  exists cm az,
    claimMapper a = Some cm /\ authorizer a = Some az /\
    ((exists cert, PeerCert (TLSInfoFormContext ctx) = Done (Some cert)) \/
     incomingHeader ctx (authHeaderName a) <> [] \/
     declaresRequired cm w = false).

(** The namespace of a request: what its accessor returns, empty without. *)
Definition namespaceOf (req : any) : string :=
  match as_hasNamespace req with
  | Some ns => ns
  | None => ""
  end.

(** The call target the authorizer is asked about. *)
Definition targetOf (req : any) (info : UnaryServerInfo) : CallTarget :=
  {| Namespace := namespaceOf req;
     APIName := FullMethod info;
     Request := req |}.

(** The context after a successful mapping: the claims slot, and on top of
    it the header slot for a non-empty header. *)
Definition enriched {Claims} (ctx : Ctx Claims) (claims : option Claims)
    (authHeader : string) : Ctx Claims :=
  if bool_decide (authHeader <> "")
  then WithValue (WithValue ctx MappedClaims (ClaimsValue claims))
         AuthHeader (StringValue authHeader)
  else WithValue ctx MappedClaims (ClaimsValue claims).

(** Events that only gather what the mapper needs. *)
Definition isProbe {Claims} (e : Event Claims) : Prop :=
  match e with
  | EvAuthInfoRequired _ | EvAudience _ _ _ _ => True
  | _ => False
  end.

(** *** Observations on a trace

    Each keeps the events of one kind, in order. *)

Definition counterOf {Claims} (e : Event Claims)
  : option (Handler * metricDefinition * Z) :=
  match e with
  | EvCounter h m v => Some (h, m, v)
  | _ => None
  end.

(** The handle of a metric event, counter or timer. *)
Definition metricHandleOf {Claims} (e : Event Claims) : option Handler :=
  match e with
  | EvCounter h _ _ => Some h
  | EvTimer h _ => Some h
  | _ => None
  end.

Definition handlerCallOf {Claims} (e : Event Claims)
  : option (Ctx Claims * any) :=
  match e with
  | EvHandler ctx req _ => Some (ctx, req)
  | _ => None
  end.

Definition mapperCallOf {Claims} (e : Event Claims) : option AuthInfo :=
  match e with
  | EvGetClaims authInfo _ => Some authInfo
  | _ => None
  end.

Definition authorizerCallOf {Claims} (e : Event Claims)
  : option (Ctx Claims * option Claims * CallTarget) :=
  match e with
  | EvAuthorize ctx claims target _ => Some (ctx, claims, target)
  | _ => None
  end.

(** The context a collaborator downstream of the mapping is given. *)
Definition contextOf {Claims} (e : Event Claims) : option (Ctx Claims) :=
  match e with
  | EvAuthorize ctx _ _ _ => Some ctx
  | EvHandler ctx _ _ => Some ctx
  | _ => None
  end.

(** The counter increments of a trace. *)
Definition counters {Claims} (tr : list (Event Claims)) :=
  omap counterOf tr.

(** The metrics handles a trace records on. *)
Definition metricHandles {Claims} (tr : list (Event Claims)) :=
  omap metricHandleOf tr.

(** The contexts and requests the forwarded handler was invoked with. *)
Definition handlerCalls {Claims} (tr : list (Event Claims)) :=
  omap handlerCallOf tr.

(** The evidence bundles the claim mapper was invoked with. *)
Definition mapperCalls {Claims} (tr : list (Event Claims)) :=
  omap mapperCallOf tr.

(** The arguments the authorizer was invoked with. *)
Definition authorizerCalls {Claims} (tr : list (Event Claims)) :=
  omap authorizerCallOf tr.

(** The contexts handed to the authorizer and to the forwarded handler. *)
Definition contextsPassed {Claims} (tr : list (Event Claims)) :=
  omap contextOf tr.

(** ** The paths of one call

    A relational summary of [Interceptor]: which traces and results a call
    can have.  [Interceptor_path] below shows that every run of the function
    follows one of these paths. *)

(** The evidence bundle built from a context. *)
Definition evidenceOf {World Claims} (a : interceptor World Claims)
    (ctx : Ctx Claims) (authInfo : AuthInfo) : Prop :=
  AuthToken authInfo =
    default "" (head (incomingHeader ctx (authHeaderName a))) /\
  TLSSubject authInfo =
    match leafOfFirstChain (TLSInfoFormContext ctx) with
    | Some cert => Some (Subject cert)
    | None => None
    end /\
  TLSConnection authInfo = TLSInfoFormContext ctx /\
  ExtraData authInfo =
    default "" (head (incomingHeader ctx (authExtraHeaderName a))).

(** The first block falls through: its trace, the claims and the context
    that the rest of the call uses. *)
Inductive Mapped {World Claims} (a : interceptor World Claims)
    (ctx : Ctx Claims) (w : World)
  : list (Event Claims) -> option Claims -> Ctx Claims -> Prop :=
| mapped_off :
    claimMapper a = None \/ authorizer a = None ->
    Mapped a ctx w [] None ctx
| mapped_skipped pre :
    ~ mappingDue a ctx w -> Forall isProbe pre ->
    Mapped a ctx w pre None ctx
| mapped_ok pre authInfo claims :
    mappingDue a ctx w -> Forall isProbe pre -> evidenceOf a ctx authInfo ->
    Mapped a ctx w (pre ++ [EvGetClaims authInfo (claims, None)]) claims
      (enriched ctx claims (AuthToken authInfo)).

(** The second block: its trace and the pair it returns from [Interceptor],
    if it does. *)
Inductive Verdict {World Claims} (scope : string)
    (a : interceptor World Claims) (ctx : Ctx Claims) (claims : option Claims)
    (req : any) (info : UnaryServerInfo)
  : list (Event Claims) -> option (any * option error) -> Prop :=
| verdict_open :
    authorizer a = None ->
    Verdict scope a ctx claims req info [] None
| verdict_failed res e :
    authorizer a <> None ->
    Verdict scope a ctx claims req info
      [EvAuthorize ctx claims (targetOf req info) (res, Some e);
       EvTimer (getMetricsHandler a scope (namespaceOf req))
         ServiceAuthorizationLatency;
       EvCounter (getMetricsHandler a scope (namespaceOf req))
         ServiceErrAuthorizeFailedCounter 1;
       EvLogError (logger a) "Authorization error" e]
      (Some (None, Some errUnauthorized))
| verdict_denied res :
    authorizer a <> None -> Decision res <> DecisionAllow ->
    Verdict scope a ctx claims req info
      [EvAuthorize ctx claims (targetOf req info) (res, None);
       EvTimer (getMetricsHandler a scope (namespaceOf req))
         ServiceAuthorizationLatency;
       EvCounter (getMetricsHandler a scope (namespaceOf req))
         ServiceErrUnauthorizedCounter 1]
      (Some (None,
             Some (if bool_decide (Reason res <> "")
                   then NewPermissionDenied RequestUnauthorized (Reason res)
                   else errUnauthorized)))
| verdict_allowed res :
    authorizer a <> None -> Decision res = DecisionAllow ->
    Verdict scope a ctx claims req info
      [EvAuthorize ctx claims (targetOf req info) (res, None);
       EvTimer (getMetricsHandler a scope (namespaceOf req))
         ServiceAuthorizationLatency]
      None.

(** The call as a whole: rejected by the first block, rejected by the second,
    or forwarded to the handler. *)
Inductive Path {World Claims} (scope : string)
    (a : interceptor World Claims) (ctx : Ctx Claims) (req : any)
    (info : UnaryServerInfo) (w : World)
  : outcome (any * option error) -> list (Event Claims) -> Prop :=
| path_mapper_failed pre authInfo claims e :
    mappingDue a ctx w -> Forall isProbe pre -> evidenceOf a ctx authInfo ->
    Path scope a ctx req info w (Done (None, Some errUnauthorized))
      (pre ++ [EvGetClaims authInfo (claims, Some e);
               EvLogError (logger a) "Authorization error" e])
| path_rejected trM claims ctx' trV rejected :
    Mapped a ctx w trM claims ctx' ->
    Verdict scope a ctx' claims req info trV (Some rejected) ->
    Path scope a ctx req info w (Done rejected) (trM ++ trV)
| path_forwarded trM claims ctx' trV result :
    Mapped a ctx w trM claims ctx' ->
    Verdict scope a ctx' claims req info trV None ->
    Path scope a ctx req info w (Done result)
      (trM ++ trV ++ [EvHandler ctx' req result]).

(** A run whose trace comes after the events [t]. *)
Definition prefixed {World Claims A} (t : list (Event Claims))
    (x : outcome A * World * list (Event Claims))
  : outcome A * World * list (Event Claims) :=
  match x with
  | (r, w, t') => (r, w, t ++ t')
  end.

(** ** Sample collaborators and calls

    A world that counts collaborator calls, claims that are plain strings. *)

Module Sample.

Definition clientName : Name :=
  {| CommonName := "worker-7"; Organization := ["acme"] |}.

Definition caName : Name :=
  {| CommonName := "acme-root"; Organization := ["acme"] |}.

Definition clientCert : Certificate :=
  {| Subject := clientName; Issuer := caName |}.

Definition caCert : Certificate :=
  {| Subject := caName; Issuer := caName |}.

Definition tlsInfo : TLSInfo :=
  {| State := {| ServerName := "frontend";
                 VerifiedChains := [[Some clientCert; Some caCert]] |} |}.

(** A call without metadata, peer or context values. *)
Definition bareCtx : Ctx string :=
  {| incomingMD := None; ctxPeer := None; values := [] |}.

(** A call over mTLS with no authorization header. *)
Definition tlsCtx : Ctx string :=
  {| incomingMD := Some ∅;
     ctxPeer := Some {| Addr := "10.0.0.7:51234";
                        PeerAuthInfo := Some (TLSAuthInfo tlsInfo) |};
     values := [] |}.

(** A call with two values of the primary header and no certificate. *)
Definition bearerCtx : Ctx string :=
  {| incomingMD := Some {[ "authorization" := ["tokA"; "tokB"] ]};
     ctxPeer := Some {| Addr := "10.0.0.8:40000"; PeerAuthInfo := None |};
     values := [] |}.

Definition mapperOk : ClaimMapper nat string :=
  {| GetClaims := fun authInfo w => ((Some (AuthToken authInfo), None), S w);
     AuthInfoRequired := None |}.

Definition mapperFailing : ClaimMapper nat string :=
  {| GetClaims := fun _ w =>
       ((None, Some (OtherError "token signature invalid")), S w);
     AuthInfoRequired := None |}.


Definition allowAll : Authorizer nat string :=
  {| Authorize := fun _ _ _ w =>
       (({| Decision := DecisionAllow; Reason := "" |}, None), S w) |}.

Definition denyMissingScope : Authorizer nat string :=
  {| Authorize := fun _ _ _ w =>
       (({| Decision := DecisionDeny; Reason := "missing scope" |}, None),
        S w) |}.

Definition brokenAuthorizer : Authorizer nat string :=
  {| Authorize := fun _ _ _ w =>
       (({| Decision := DecisionDeny; Reason := "" |},
         Some (OtherError "policy backend unreachable")), S w) |}.

Definition echo : UnaryHandler nat string :=
  fun _ req w => ((req, None), S w).

Definition startRequest : any :=
  Some {| TypeName := "StartWorkflowExecutionRequest";
          Content := "workflow-42";
          NamespaceMethod := Some "ns1" |}.

Definition startInfo : UnaryServerInfo :=
  {| Server := None; FullMethod := "/WorkflowService/StartWorkflowExecution" |}.

Definition scope : string := "Authorization".

Definition configured (cm : option (ClaimMapper nat string))
    (az : option (Authorizer nat string)) : interceptor nat string :=
  NewAuthorizationInterceptor cm az {| tags := [] |}
    {| loggerName := "frontend" |} None "" "".

End Sample.

(** * The ringpop service wrapper

    [service] of the ringpop membership package: a ringpop instance with a
    lifecycle status that [start] and [stop] move by compare-and-swap.  The
    ringpop library, the [backoff] retry loop and the daemon status
    constants of package [common] are outside of this file; the service is
    embedded over them as parameters, and the instance, the logger and
    whatever else the library touches are an abstract environment. *)

Module Ringpop.

(** Errors: what a collaborator returns, or [fmt.Errorf(prefix + "%w", err)]. *)
Inductive error :=
| ErrorText (text : string)
| Wrap (prefix : string) (err : error).

(** [err.Error()]. *)
Fixpoint Error (e : error) : string :=
  match e with
  | ErrorText text => text
  | Wrap prefix err => String.append prefix (Error err)
  end.

(** [errors.Unwrap]. *)
Definition Unwrap (e : error) : option error :=
  match e with
  | ErrorText _ => None
  | Wrap _ err => Some err
  end.

(** Number of times we retry refreshing the bootstrap list and try to join
    the Ringpop cluster before giving up. *)
Definition maxBootstrapRetries : Z := 5.

(** [swim.BootstrapOptions], with [statichosts.New(hostPorts...)] kept as
    the list of its hosts. *)
Record BootstrapOptions := {
  ParallelismFactor : Z;
  JoinSize : Z;
  MaxJoinDuration : Z;
  DiscoverProvider : list string
}.

(** What one attempt of the bootstrap operation does, in order. *)
Inductive Attempt :=
| EvRetrieve (ret : list string * option error)
| EvBootstrap (opts : BootstrapOptions) (ret : list string * option error)
| EvWarn (msg : string) (err : error).

(** What the service does to its surroundings: it enters the retry loop of
    [bootstrap] (with a policy; the attempts the loop made and its result are
    recorded with it) and it destroys the ringpop instance. *)
Inductive Event (RetryPolicy : Type) :=
| EvThrottleRetry (policy : RetryPolicy) (attempts : list Attempt)
                  (ret : option error)
| EvDestroy.

Arguments EvThrottleRetry {RetryPolicy} policy attempts ret.
Arguments EvDestroy {RetryPolicy}.

(** The bootstrap operation as the retry loop sees it. *)
Abbreviation Operation Env := (Env -> option error * Env * list Attempt).

(** What the service uses of packages [common] and [backoff] and of the
    ringpop library. *)
Record Imports (Env RetryPolicy : Type) := {
  DaemonStatusInitialized : Z;
  DaemonStatusStarted : Z;
  DaemonStatusStopped : Z;
  NewExponentialRetryPolicy : Z -> RetryPolicy;
  WithBackoffCoefficient : RetryPolicy -> Z -> RetryPolicy;
  WithMaximumAttempts : RetryPolicy -> Z -> RetryPolicy;
  ThrottleRetry : Operation Env -> RetryPolicy -> Operation Env;
  Bootstrap : BootstrapOptions -> Env -> (list string * option error) * Env;
  Destroy : Env -> Env
}.

Arguments DaemonStatusInitialized {Env RetryPolicy} i.
Arguments DaemonStatusStarted {Env RetryPolicy} i.
Arguments DaemonStatusStopped {Env RetryPolicy} i.
Arguments NewExponentialRetryPolicy {Env RetryPolicy} i _.
Arguments WithBackoffCoefficient {Env RetryPolicy} i _ _.
Arguments WithMaximumAttempts {Env RetryPolicy} i _ _.
Arguments ThrottleRetry {Env RetryPolicy} i _ _ _.
Arguments Bootstrap {Env RetryPolicy} i _ _.
Arguments Destroy {Env RetryPolicy} i _.

(** [service]; the embedded ringpop instance and the logger are part of the
    environment. *)
Record service := {
  status : Z;
  maxJoinDuration : Z
}.

Definition set_status (r : service) (s : Z) : service :=
  {| status := s; maxJoinDuration := maxJoinDuration r |}.

(** [atomic.CompareAndSwapInt32(&r.status, old, new)]: whether it swapped,
    and the service after it. *)
Definition CompareAndSwapInt32 (r : service) (old new : Z) : bool * service :=
  if (status r =? old)%Z then (true, set_status r new) else (false, r).

(** A bootstrap host retriever, [func() ([]string, error)]. *)
Abbreviation Retriever Env := (Env -> (list string * option error) * Env).

Section Service.

Context {Env RetryPolicy : Type}.
Variable pkg : Imports Env RetryPolicy.

(** [newService]. *)
Definition newService (maxJoinDuration : Z) : service :=
  {| status := DaemonStatusInitialized pkg;
     maxJoinDuration := maxJoinDuration |}.

(** The closure [op] of [bootstrap]: one attempt to discover the hosts and
    join the cluster. *)
Definition op (r : service) (bootstrapHostPostRetriever : Retriever Env)
  : Operation Env := fun env =>
  match bootstrapHostPostRetriever env with
  | ((hostPorts, Some err), env1) =>
      (Some err, env1, [EvRetrieve (hostPorts, Some err)])
  | ((hostPorts, None), env1) =>
      let bootParams :=
        {| ParallelismFactor := 10;
           JoinSize := 1;
           MaxJoinDuration := maxJoinDuration r;
           DiscoverProvider := hostPorts |} in
      match Bootstrap pkg bootParams env1 with
      | ((joined, Some err), env2) =>
          (Some err, env2,
           [EvRetrieve (hostPorts, None);
            EvBootstrap bootParams (joined, Some err);
            EvWarn "unable to bootstrap ringpop. retrying" err])
      | ((joined, None), env2) =>
          (None, env2,
           [EvRetrieve (hostPorts, None);
            EvBootstrap bootParams (joined, None)])
      end
  end.

(** The retry policy of [bootstrap]. *)
Definition bootstrapPolicy (bootstrapRetryBackoffInterval : Z) : RetryPolicy :=
  WithMaximumAttempts pkg
    (WithBackoffCoefficient pkg
       (NewExponentialRetryPolicy pkg bootstrapRetryBackoffInterval) 1)
    maxBootstrapRetries.

(** [bootstrap]: the error it returns, the environment after it and the
    event of its retry loop. *)
Definition bootstrap (r : service) (bootstrapHostPostRetriever : Retriever Env)
    (bootstrapRetryBackoffInterval : Z) (env : Env)
  : option error * Env * list (Event RetryPolicy) :=
  let policy := bootstrapPolicy bootstrapRetryBackoffInterval in
  match ThrottleRetry pkg (op r bootstrapHostPostRetriever) policy env with
  | (Some err, env1, attempts) =>
      (Some (Wrap "exhausted all retries: " err), env1,
       [EvThrottleRetry policy attempts (Some err)])
  | (None, env1, attempts) =>
      (None, env1, [EvThrottleRetry policy attempts None])
  end.

(** [start]: bootstraps the ring pop service at most once. *)
Definition start (r : service) (bootstrapHostPostRetriever : Retriever Env)
    (bootstrapRetryBackoffInterval : Z) (env : Env)
  : option error * service * Env * list (Event RetryPolicy) :=
  match CompareAndSwapInt32 r (DaemonStatusInitialized pkg)
          (DaemonStatusStarted pkg) with
  | (false, r1) => (None, r1, env, [])
  | (true, r1) =>
      match bootstrap r1 bootstrapHostPostRetriever
              bootstrapRetryBackoffInterval env with
      | (err, env1, evs) => (err, r1, env1, evs)
      end
  end.

(** [stop]: destroys the ring pop instance. *)
Definition stop (r : service) (env : Env)
  : service * Env * list (Event RetryPolicy) :=
  match CompareAndSwapInt32 r (DaemonStatusStarted pkg)
          (DaemonStatusStopped pkg) with
  | (false, r1) => (r1, env, [])
  | (true, r1) => (r1, Destroy pkg env, [EvDestroy])
  end.

(** *** Calls one after the other *)

Inductive Call :=
| CallStart (bootstrapHostPostRetriever : Retriever Env)
            (bootstrapRetryBackoffInterval : Z)
| CallStop.

(** A service, its environment, what it has done so far and what its
    [start] calls returned, oldest first. *)
Record Run := {
  svc : service;
  env : Env;
  done : list (Event RetryPolicy);
  returned : list (option error)
}.

Definition fresh (maxJoinDuration : Z) (env0 : Env) : Run :=
  {| svc := newService maxJoinDuration; env := env0;
     done := []; returned := [] |}.

Definition perform (x : Run) (c : Call) : Run :=
  match c with
  | CallStart retriever interval =>
      match start (svc x) retriever interval (env x) with
      | (err, r1, env1, evs) =>
          {| svc := r1; env := env1; done := done x ++ evs;
             returned := returned x ++ [err] |}
      end
  | CallStop =>
      match stop (svc x) (env x) with
      | (r1, env1, evs) =>
          {| svc := r1; env := env1; done := done x ++ evs;
             returned := returned x |}
      end
  end.

Definition performAll (x : Run) (calls : list Call) : Run :=
  fold_left perform calls x.

(** *** Calls from several goroutines

    Each goroutine is inside one call of [start] or [stop]; the
    compare-and-swap is one atomic step, what follows it another. *)

Inductive Goroutine :=
| AtStart (bootstrapHostPostRetriever : Retriever Env)
          (bootstrapRetryBackoffInterval : Z)
| InBootstrap (bootstrapHostPostRetriever : Retriever Env)
              (bootstrapRetryBackoffInterval : Z)
| AtStop
| InDestroy
| Returned (err : option error).

Record Shared := {
  shared_svc : service;
  shared_env : Env;
  shared_done : list (Event RetryPolicy);
  goroutines : list Goroutine
}.

(** Goroutine [i] takes its next step; a goroutine that has returned, or
    that does not exist, takes none. *)
Definition step (x : Shared) (i : nat) : Shared :=
  match goroutines x !! i with
  | Some (AtStart retriever interval) =>
      match CompareAndSwapInt32 (shared_svc x) (DaemonStatusInitialized pkg)
              (DaemonStatusStarted pkg) with
      | (false, r1) =>
          {| shared_svc := r1; shared_env := shared_env x;
             shared_done := shared_done x;
             goroutines := <[i := Returned None]> (goroutines x) |}
      | (true, r1) =>
          {| shared_svc := r1; shared_env := shared_env x;
             shared_done := shared_done x;
             goroutines :=
               <[i := InBootstrap retriever interval]> (goroutines x) |}
      end
  | Some (InBootstrap retriever interval) =>
      match bootstrap (shared_svc x) retriever interval (shared_env x) with
      | (err, env1, evs) =>
          {| shared_svc := shared_svc x; shared_env := env1;
             shared_done := shared_done x ++ evs;
             goroutines := <[i := Returned err]> (goroutines x) |}
      end
  | Some AtStop =>
      match CompareAndSwapInt32 (shared_svc x) (DaemonStatusStarted pkg)
              (DaemonStatusStopped pkg) with
      | (false, r1) =>
          {| shared_svc := r1; shared_env := shared_env x;
             shared_done := shared_done x;
             goroutines := <[i := Returned None]> (goroutines x) |}
      | (true, r1) =>
          {| shared_svc := r1; shared_env := shared_env x;
             shared_done := shared_done x;
             goroutines := <[i := InDestroy]> (goroutines x) |}
      end
  | Some InDestroy =>
      {| shared_svc := shared_svc x; shared_env := Destroy pkg (shared_env x);
         shared_done := shared_done x ++ [EvDestroy];
         goroutines := <[i := Returned None]> (goroutines x) |}
  | Some (Returned _) | None => x
  end.

(** A schedule names the goroutine of each step. *)
Definition schedule (x : Shared) (steps : list nat) : Shared :=
  fold_left step steps x.

(** A goroutine about to call [start] or [stop]. *)
Definition entering (g : Goroutine) : Prop :=
  match g with
  | AtStart _ _ | AtStop => True
  | _ => False
  end.

End Service.

(** The retry loops and the destructions of a trace. *)
Definition isThrottleRetry {RetryPolicy} (e : Event RetryPolicy) : bool :=
  match e with
  | EvThrottleRetry _ _ _ => true
  | EvDestroy => false
  end.

Definition isDestroy {RetryPolicy} (e : Event RetryPolicy) : bool :=
  match e with
  | EvThrottleRetry _ _ _ => false
  | EvDestroy => true
  end.

(** How many elements of a list satisfy a test. *)
Fixpoint count {A} (p : A -> bool) (l : list A) : nat :=
  match l with
  | [] => 0
  | x :: rest => (if p x then 1 else 0) + count p rest
  end.

Definition inBootstrap {Env} (g : Goroutine (Env:=Env)) : bool :=
  match g with
  | InBootstrap _ _ => true
  | _ => false
  end.

Definition inDestroy {Env} (g : Goroutine (Env:=Env)) : bool :=
  match g with
  | InDestroy => true
  | _ => false
  end.

(** The life of a service that is called from one goroutine: what it has
    done and what its [start] calls returned, by status. *)
Inductive Lifecycle {Env RetryPolicy} (pkg : Imports Env RetryPolicy)
    (x : Run (Env:=Env) (RetryPolicy:=RetryPolicy)) : Prop :=
| life_initialized :
    status (svc x) = DaemonStatusInitialized pkg ->
    done x = [] -> returned x = [] ->
    Lifecycle pkg x
| life_started policy attempts ret later :
    status (svc x) = DaemonStatusStarted pkg ->
    done x = [EvThrottleRetry policy attempts ret] ->
    returned x = (Wrap "exhausted all retries: " <$> ret) :: later ->
    Forall (eq None) later ->
    Lifecycle pkg x
| life_stopped policy attempts ret later :
    status (svc x) = DaemonStatusStopped pkg ->
    done x = [EvThrottleRetry policy attempts ret; EvDestroy] ->
    returned x = (Wrap "exhausted all retries: " <$> ret) :: later ->
    Forall (eq None) later ->
    Lifecycle pkg x.

(** The same for a service shared by goroutines: the retry loops entered or
    about to be, and the destructions done or about to be, by status. *)
Definition Exclusive {Env RetryPolicy} (pkg : Imports Env RetryPolicy)
    (x : Shared (Env:=Env) (RetryPolicy:=RetryPolicy)) : Prop :=
  let loops := count inBootstrap (goroutines x)
               + count isThrottleRetry (shared_done x) in
  let destructions := count inDestroy (goroutines x)
                      + count isDestroy (shared_done x) in
  (status (shared_svc x) = DaemonStatusInitialized pkg /\
   loops = 0 /\ destructions = 0) \/
  (status (shared_svc x) = DaemonStatusStarted pkg /\
   loops = 1 /\ destructions = 0) \/
  (status (shared_svc x) = DaemonStatusStopped pkg /\
   loops = 1 /\ destructions = 1).

(** The three status constants differ. *)
Definition distinctStatus {Env RetryPolicy} (pkg : Imports Env RetryPolicy)
  : Prop :=
  DaemonStatusInitialized pkg <> DaemonStatusStarted pkg /\
  DaemonStatusInitialized pkg <> DaemonStatusStopped pkg /\
  DaemonStatusStarted pkg <> DaemonStatusStopped pkg.

(** *** A sample environment

    The environment counts the calls into the library; the retry loop tries
    the operation as often as the policy allows and stops at the first
    success. *)

Record samplePolicy := {
  interval : Z;
  coefficient : Z;
  attemptsAllowed : Z
}.

Fixpoint retry (n : nat) (operation : Operation nat) : Operation nat :=
  fun env =>
    match n with
    | O => (Some (ErrorText "no attempt allowed"), env, [])
    | S O => operation env
    | S m =>
        match operation env with
        | (None, env1, evs) => (None, env1, evs)
        | (Some _, env1, evs) =>
            match retry m operation env1 with
            | (err, env2, evs') => (err, env2, evs ++ evs')
            end
        end
    end.

Definition samplePkg : Imports nat samplePolicy :=
  {| DaemonStatusInitialized := 0;
     DaemonStatusStarted := 1;
     DaemonStatusStopped := 2;
     NewExponentialRetryPolicy := fun i =>
       {| interval := i; coefficient := 2; attemptsAllowed := 0 |};
     WithBackoffCoefficient := fun p c =>
       {| interval := interval p; coefficient := c;
          attemptsAllowed := attemptsAllowed p |};
     WithMaximumAttempts := fun p n =>
       {| interval := interval p; coefficient := coefficient p;
          attemptsAllowed := n |};
     ThrottleRetry := fun operation p =>
       retry (Z.to_nat (attemptsAllowed p)) operation;
     Bootstrap := fun opts env =>
       ((DiscoverProvider opts, None), S env);
     Destroy := fun env => S env |}.

(** A retriever that finds no seed. *)
Definition noSeeds : Retriever nat :=
  fun env => (([], Some (ErrorText "no seed host")), S env).

(** A retriever that finds two. *)
Definition twoSeeds : Retriever nat :=
  fun env => ((["10.0.0.1:6933"; "10.0.0.2:6933"], None), S env).

End Ringpop.

(** ** More sample collaborators and calls *)

Module SampleAudience.

Import Sample.

(** An audience getter that answers with the name of the service. *)
Definition frontendAudience : JWTAudienceMapper nat string :=
  {| AudienceOf := fun _ _ _ w => ("temporal-frontend", S w) |}.

Definition withAudience (cm : option (ClaimMapper nat string))
    (az : option (Authorizer nat string)) : interceptor nat string :=
  NewAuthorizationInterceptor cm az {| tags := [] |}
    {| loggerName := "frontend" |} (Some frontendAudience) "" "".

(** A call with both headers, the primary one twice, and a value of some
    other key in its context. *)
Definition extrasCtx : Ctx string :=
  {| incomingMD :=
       Some {[ "authorization" := ["tokA"; "tokB"];
               "authorization-extras" := ["x1"] ]};
     ctxPeer := Some {| Addr := "10.0.0.9:40001"; PeerAuthInfo := None |};
     values := [(OtherKey "request-id", StringValue "r-17")] |}.

(** An authorizer that denies without a reason. *)
Definition denySilently : Authorizer nat string :=
  {| Authorize := fun _ _ _ w =>
       (({| Decision := DecisionDeny; Reason := "" |}, None), S w) |}.

End SampleAudience.

(** ** Further observations on a trace *)

Definition timerOf {Claims} (e : Event Claims)
  : option (Handler * metricDefinition) :=
  match e with
  | EvTimer h m => Some (h, m)
  | _ => None
  end.

Definition logOf {Claims} (e : Event Claims)
  : option (Logger * string * error) :=
  match e with
  | EvLogError l msg err => Some (l, msg, err)
  | _ => None
  end.

Definition audienceCallOf {Claims} (e : Event Claims)
  : option (Ctx Claims * any * UnaryServerInfo * string) :=
  match e with
  | EvAudience ctx req info s => Some (ctx, req, info, s)
  | _ => None
  end.

(** The error with which the claim mapper or the authorizer returned. *)
Definition collaboratorErrorOf {Claims} (e : Event Claims) : option error :=
  match e with
  | EvGetClaims _ (_, Some err) => Some err
  | EvAuthorize _ _ _ (_, Some err) => Some err
  | _ => None
  end.

(** The timers a trace records, with their handles. *)
Definition timers {Claims} (tr : list (Event Claims)) :=
  omap timerOf tr.

(** What a trace logs. *)
Definition logged {Claims} (tr : list (Event Claims)) :=
  omap logOf tr.

(** The calls of the audience getter, with its answers. *)
Definition audienceCalls {Claims} (tr : list (Event Claims)) :=
  omap audienceCallOf tr.

(** The errors the claim mapper and the authorizer returned. *)
Definition collaboratorErrors {Claims} (tr : list (Event Claims)) :=
  omap collaboratorErrorOf tr.

Section Properties.
Context {World Claims : Type}.
Variable scope : string.
Implicit Types (a : interceptor World Claims) (ctx : Ctx Claims) (w : World).

(** ** Properties

    *** Evidence *)

Lemma PeerCert_Done tlsInfo : PeerCert tlsInfo = Done (leafOfFirstChain tlsInfo).
Proof.
  destruct tlsInfo as [[[sn chains]]|]; [|reflexivity].
  unfold PeerCert, leafOfFirstChain; simpl.
  destruct chains as [|[|cert chain] rest]; reflexivity.
Qed.

(** The first value of a header, or the empty string: the guarded subscript. *)
Lemma first_value (hs : list string) (w : World) :
  (if (0 <? length hs)%nat then lift (Claims:=Claims) (index hs 0) else ret "") w
  = (Done (default "" (head hs)), w, []).
Proof. destruct hs; reflexivity. Qed.


(** *** Running the monad *)

Lemma bind_Done {A B} (m : M World Claims A) (f : A -> M World Claims B)
    w x w1 t1 :
  m w = (Done x, w1, t1) -> bind m f w = prefixed t1 (f x w1).
Proof. intros H. unfold bind, prefixed. rewrite H. reflexivity. Qed.

Lemma bind_call {A B} (g : World -> A * World) ev
    (f : A -> M World Claims B) w :
  bind (call g ev) f w = prefixed [ev (g w).1] (f (g w).1 (g w).2).
Proof. unfold bind, call, prefixed. destruct (g w); reflexivity. Qed.

(** *** The two blocks and the call as a whole *)

Lemma required_probe (cm : ClaimMapper World Claims) w :
  exists w1 t,
    match AuthInfoRequired cm with
    | Some f => call (Claims:=Claims) f EvAuthInfoRequired
    | None => ret true
    end w = (Done (declaresRequired cm w), w1, t) /\ Forall isProbe t.
Proof.
  unfold declaresRequired, call, ret.
  destruct (AuthInfoRequired cm) as [f|].
  - destruct (f w) as [b w1]. exists w1, [EvAuthInfoRequired b].
    split; [reflexivity|]. repeat constructor.
  - exists w, []. split; [reflexivity|constructor].
Qed.

Lemma audience_probe a ctx req info w :
  exists s w1 t,
    match audienceGetter a with
    | Some g => call (AudienceOf g ctx req info) (EvAudience ctx req info)
    | None => ret ""
    end w = (Done s, w1, t) /\ Forall isProbe t.
Proof.
  unfold call, ret.
  destruct (audienceGetter a) as [g|].
  - destruct (AudienceOf g ctx req info w) as [s w1].
    exists s, w1, [EvAudience ctx req info s].
    split; [reflexivity|]. repeat constructor.
  - exists "", w, []. split; [reflexivity|constructor].
Qed.

Lemma mappingDue_test a ctx w cm az :
  claimMapper a = Some cm -> authorizer a = Some az ->
  mappingDue a ctx w <->
  bool_decide (match leafOfFirstChain (TLSInfoFormContext ctx) with
               | Some cert => Some (Subject cert)
               | None => None
               end <> None)
  || (0 <? length (incomingHeader ctx (authHeaderName a)))%nat
  || negb (declaresRequired cm w) = true.
Proof.
  intros Hcm Haz. unfold mappingDue. rewrite PeerCert_Done.
  rewrite !orb_true_iff, negb_true_iff, bool_decide_eq_true, Nat.ltb_lt.
  split.
  - intros (cm' & az' & Hcm' & _ & H). rewrite Hcm in Hcm'.
    injection Hcm' as <-.
    destruct H as [[cert Hc]|[Hh|Hr]].
    + left; left. injection Hc as ->. discriminate.
    + left; right. destruct (incomingHeader ctx (authHeaderName a));
        [contradiction|simpl; lia].
    + right; exact Hr.
  - intros H. exists cm, az. split; [exact Hcm|]. split; [exact Haz|].
    destruct H as [[H|H]|H].
    + left. destruct (leafOfFirstChain (TLSInfoFormContext ctx)) as [cert|];
        [exists cert; reflexivity|contradiction].
    + right; left. intros Heq. rewrite Heq in H. simpl in H. lia.
    + right; right; exact H.
Qed.

Lemma mapClaimsBlock_cases a ctx req info w :
  exists w',
    (exists pre authInfo claims e,
        mappingDue a ctx w /\ Forall isProbe pre /\ evidenceOf a ctx authInfo /\
        mapClaimsBlock a ctx req info w =
          (Done (inl (None, Some errUnauthorized)), w',
           pre ++ [EvGetClaims authInfo (claims, Some e);
                   EvLogError (logger a) "Authorization error" e])) \/
    (exists tr claims ctx',
        Mapped a ctx w tr claims ctx' /\
        mapClaimsBlock a ctx req info w = (Done (inr (claims, ctx')), w', tr)).
Proof.
  unfold mapClaimsBlock.
  destruct (claimMapper a) as [cm|] eqn:Hcm;
    [|exists w; right; do 3 eexists; split; [apply mapped_off; auto|reflexivity]].
  destruct (authorizer a) as [az|] eqn:Haz;
    [|exists w; right; do 3 eexists; split; [apply mapped_off; auto|reflexivity]].
  pose proof (mappingDue_test a ctx w cm az Hcm Haz) as Hdue.
  erewrite bind_Done by (unfold lift; rewrite PeerCert_Done; reflexivity).
  destruct (required_probe cm w) as (w1 & t1 & Hrun1 & Hp1).
  erewrite bind_Done by exact Hrun1.
  set (hs := incomingHeader ctx (authHeaderName a)) in *.
  set (xs := incomingHeader ctx (authExtraHeaderName a)) in *.
  destruct (_ || _ || _) eqn:Htest.
  - erewrite bind_Done by apply first_value.
    erewrite bind_Done by apply first_value.
    destruct (audience_probe a ctx req info w1) as (s & w2 & t2 & Hrun2 & Hp2).
    erewrite bind_Done by exact Hrun2.
    rewrite bind_call.
    match goal with |- context [GetClaims cm ?ai w2] => set (authInfo := ai) end.
    assert (Hev : evidenceOf a ctx authInfo) by (repeat split).
    destruct (GetClaims cm authInfo w2) as [[claims [e|]] w3]; simpl.
    + exists w3. left. exists (t1 ++ t2), authInfo, claims, e.
      split; [apply Hdue; reflexivity|].
      split; [apply Forall_app; split; assumption|].
      split; [exact Hev|].
      unfold ret. simpl. rewrite <- app_assoc. reflexivity.
    + exists w3. right. do 3 eexists. split.
      * apply (mapped_ok a ctx w (t1 ++ t2) authInfo claims);
          [apply Hdue; reflexivity|apply Forall_app; split; assumption|exact Hev].
      * unfold ret, enriched. simpl. rewrite <- app_assoc. reflexivity.
  - exists w1. right. do 3 eexists. split.
    + apply (mapped_skipped a ctx w t1); [|exact Hp1].
      intros H. apply Hdue in H. discriminate.
    + unfold ret. simpl. rewrite app_nil_r. reflexivity.
Qed.


Lemma authorizeBlock_cases a ctx claims req info w :
  exists v w' tr,
    authorizeBlock scope a ctx claims req info w = (Done v, w', tr) /\
    Verdict scope a ctx claims req info tr v.
Proof.
  unfold authorizeBlock, authorize.
  destruct (authorizer a) as [az|] eqn:Haz;
    [|exists None, w, []; split; [reflexivity|apply verdict_open; exact Haz]].
  assert (Hcfg : authorizer a <> None) by (rewrite Haz; discriminate).
  fold (namespaceOf req). fold (targetOf req info).
  set (h := getMetricsHandler a scope (namespaceOf req)).
  unfold bind at 1. rewrite bind_call.
  destruct (Authorize az ctx claims (targetOf req info) w)
    as [[res [e|]] w1]; simpl.
  - do 3 eexists. split; [reflexivity|]. apply verdict_failed; exact Hcfg.
  - destruct (Decision res) eqn:Hd; simpl.
    + destruct (bool_decide (Reason res <> "")) eqn:Hr; simpl;
        (do 3 eexists; split; [reflexivity|]);
        pose proof (verdict_denied scope a ctx claims req info res Hcfg) as V;
        rewrite Hr in V; apply V; rewrite Hd; discriminate.
    + do 3 eexists. split; [reflexivity|].
      apply verdict_allowed; assumption.
Qed.

Lemma Interceptor_path a ctx req info handler w out w' tr :
  Interceptor scope a ctx req info handler w = (out, w', tr) ->
  Path scope a ctx req info w out tr.
Proof.
  unfold Interceptor. intros Hrun.
  destruct (mapClaimsBlock_cases a ctx req info w)
    as (w1 & [(pre & authInfo & claims & e & Hdue & Hp & Hev & Hm)
             |(trM & claims & ctx' & HM & Hm)]);
    erewrite bind_Done in Hrun by exact Hm; cbv beta iota in Hrun.
  - unfold ret, prefixed in Hrun. injection Hrun as <- _ <-.
    rewrite app_nil_r. apply path_mapper_failed; assumption.
  - destruct (authorizeBlock_cases a ctx' claims req info w1)
      as (v & w2 & trV & Hv & HV).
    erewrite bind_Done in Hrun by exact Hv.
    destruct v as [rejected|].
    + unfold ret, prefixed in Hrun. injection Hrun as <- _ <-.
      rewrite !app_nil_r. eapply path_rejected; eassumption.
    + unfold call, prefixed in Hrun.
      destruct (handler ctx' req w2) as [result w3].
      injection Hrun as <- _ <-.
      eapply path_forwarded; eassumption.
Qed.


(** *** Observations on the traces of the paths *)

Lemma omap_probes {B} (f : Event Claims -> option B) pre :
  (forall e, isProbe e -> f e = None) ->
  Forall isProbe pre -> omap f pre = [].
Proof.
  intros Hf. induction 1 as [|e pre He _ IH]; [reflexivity|].
  simpl. rewrite (Hf e He). exact IH.
Qed.

Lemma probe_in (e : Event Claims) pre :
  Forall isProbe pre -> In e pre -> isProbe e.
Proof. intros Hp Hin. rewrite Forall_forall in Hp. apply Hp, list_elem_of_In, Hin. Qed.


Ltac probe_free :=
  intros [] ?; simpl in *; (reflexivity || contradiction).

Ltac observe :=
  unfold counters, metricHandles, handlerCalls, mapperCalls,
    authorizerCalls, contextsPassed in *;
  rewrite ?omap_app in *;
  repeat match goal with
    | Hp : Forall isProbe ?pre |- context [omap ?f ?pre] =>
        rewrite (omap_probes f pre ltac:(probe_free) Hp)
    | Hp : Forall isProbe ?pre, H : context [omap ?f ?pre] |- _ =>
        rewrite (omap_probes f pre ltac:(probe_free) Hp) in H
    end;
  simpl in *.

(** Case analysis on the membership of an event in the trace of a path. *)
Ltac in_trace H :=
  repeat match type of H with
    | In _ (_ ++ _) => apply in_app_or in H; destruct H as [H|H]
    | In _ (_ :: _) => destruct H as [H|H]
    | In _ [] => destruct H
    | False => destruct H
    | _ \/ _ => destruct H as [H|H]
    | In _ ?pre =>
        match goal with
        | Hp : Forall isProbe pre |- _ =>
            apply (probe_in _ _ Hp) in H; destruct H
        end
    | _ = _ => simplify_eq
    end.

(** An event that is there. *)
Ltac found_in :=
  first [reflexivity | left; found_in | right; found_in].

Ltac found := rewrite ?in_app_iff; simpl; found_in.

Ltac paths Hrun :=
  apply Interceptor_path in Hrun;
  inversion Hrun as
    [preP aiP clP eP HdueP HpP HevP
    |trM clM ctxM trV rejP HM HV
    |trM clM ctxM trV resP HM HV]; subst; clear Hrun.

Ltac cases Hrun :=
  paths Hrun;
  [|match goal with HV : Verdict _ _ _ _ _ _ _ _ |- _ =>
      inversion HV; subst; clear HV end;
    match goal with HM : Mapped _ _ _ _ _ _ |- _ =>
      inversion HM; subst; clear HM end..].

(** A call always returns: no path of the interceptor panics. *)
Lemma Interceptor_returns a ctx req info handler w :
  exists result w' tr,
    Interceptor scope a ctx req info handler w = (Done result, w', tr).
Proof.
  destruct (Interceptor scope a ctx req info handler w) as [[out w'] tr] eqn:Hrun.
  pose proof (Interceptor_path _ _ _ _ _ _ _ _ _ Hrun) as P.
  destruct P; do 3 eexists; reflexivity.
Qed.

(** C1.  Every error that the interceptor returns itself, that is on a call
    whose handler was not invoked, comes with a [nil] response and is either
    the fixed [errUnauthorized] (message "Request unauthorized.", no reason)
    or the permission-denied error with the same message that carries the
    non-empty reason of a verdict the authorizer returned without error.
    Whenever the claim mapper or the authorizer returned an error, the call
    is rejected with exactly [errUnauthorized], whatever that error was.  On
    a call that reaches the handler the result is the handler's. *)
Theorem interceptor_errors_are_generic a ctx req info handler w out w' tr :
  Interceptor scope a ctx req info handler w = (out, w', tr) ->
  exists result, out = Done result /\
  (handlerCalls tr = [] ->
     result.1 = None /\
     (result.2 = Some errUnauthorized \/
      exists ctx' claims target res,
        In (EvAuthorize ctx' claims target (res, None)) tr /\
        Reason res <> "" /\
        result.2 = Some (NewPermissionDenied RequestUnauthorized (Reason res))
        /\ result.2 <> Some errUnauthorized))
  /\
  (forall authInfo claims e,
     In (EvGetClaims authInfo (claims, Some e)) tr ->
     handlerCalls tr = [] /\ result = (None, Some errUnauthorized)) /\
  (forall ctx' claims target res e,
     In (EvAuthorize ctx' claims target (res, Some e)) tr ->
     handlerCalls tr = [] /\ result = (None, Some errUnauthorized)) /\
  (forall ctx' req' answer,
     In (EvHandler ctx' req' answer) tr -> result = answer).
Proof.
  intros Hrun. cases Hrun.
  all: eexists; (split; [reflexivity|]); (split; [|split; [|split]]).
  all: try (intros ai cl e' Hin; in_trace Hin; observe; split; reflexivity).
  all: try (intros c cl t r e' Hin; in_trace Hin; observe; split; reflexivity).
  all: try (intros c r ans Hin; in_trace Hin; reflexivity).
  all: intros Hh; observe; try discriminate Hh; (split; [reflexivity|]).
  all: try (left; reflexivity).
  all: (destruct (bool_decide (Reason _ <> "")) eqn:Hr; [|left; reflexivity]).
  all: apply bool_decide_eq_true in Hr.
  all: right; do 4 eexists.
  all: (split; [found|]).
  all: (split; [exact Hr|split; [reflexivity|]]).
  all: intros Heq; injection Heq as Heq; apply Hr; exact Heq.
Qed.



(** *** Claim mapping *)

Lemma mappingDue_iff a ctx w cm az :
  claimMapper a = Some cm -> authorizer a = Some az ->
  mappingDue a ctx w <->
  (exists cert, PeerCert (TLSInfoFormContext ctx) = Done (Some cert)) \/
  incomingHeader ctx (authHeaderName a) <> [] \/
  declaresRequired cm w = false.
Proof.
  intros Hcm Haz. unfold mappingDue. split.
  - intros (cm' & az' & Hcm' & _ & H). congruence.
  - intros H. exists cm, az. auto.
Qed.

(** C2.  With both a claim mapper and an authorizer configured, [GetClaims]
    is invoked if and only if a certificate subject was found, or the primary
    header has a value, or the mapper declares evidence not required.  When
    none of these holds the mapper is not invoked and the authorizer is
    called once, with the incoming context and [nil] claims. *)
Theorem claim_mapper_invoked_iff_evidence a ctx req info handler w cm az out w' tr :
  claimMapper a = Some cm -> authorizer a = Some az ->
  Interceptor scope a ctx req info handler w = (out, w', tr) ->
  (mapperCalls tr <> [] <->
     (exists cert, PeerCert (TLSInfoFormContext ctx) = Done (Some cert)) \/
     incomingHeader ctx (authHeaderName a) <> [] \/
     declaresRequired cm w = false) /\
  (~ ((exists cert, PeerCert (TLSInfoFormContext ctx) = Done (Some cert)) \/
      incomingHeader ctx (authHeaderName a) <> [] \/
      declaresRequired cm w = false) ->
   mapperCalls tr = [] /\
   authorizerCalls tr = [(ctx, None, targetOf req info)]).
Proof.
  intros Hcm Haz Hrun.
  rewrite <- (mappingDue_iff a ctx w cm az Hcm Haz).
  cases Hrun.
  all: try match goal with
         | H : authorizer _ = None |- _ => congruence
         | H : claimMapper _ = None \/ authorizer _ = None |- _ =>
             destruct H; congruence
         end.
  all: observe.
  all: split; [split; [intros; assumption || congruence|intros; congruence || contradiction]|].
  all: intros Hn; try contradiction.
  all: split; reflexivity.
Qed.




(** C4, as amended.  An error of the authorizer increments
    [ServiceErrAuthorizeFailedCounter], a verdict other than allow increments
    [ServiceErrUnauthorizedCounter], each once, by one and on the handle scoped
    with the namespace of the request; the two counters differ.  A failure of
    the claim mapper is logged and increments no counter; an allowed call,
    with or without evidence, and a call that never reaches the authorizer
    increment none. *)
Theorem counters_of_authorization_outcomes a ctx req info handler w out w' tr :
  Interceptor scope a ctx req info handler w = (out, w', tr) ->
  (forall ctx' claims target res e,
     In (EvAuthorize ctx' claims target (res, Some e)) tr ->
     counters tr = [(getMetricsHandler a scope (namespaceOf req),
                     ServiceErrAuthorizeFailedCounter, 1%Z)]) /\
  (forall ctx' claims target res,
     In (EvAuthorize ctx' claims target (res, None)) tr ->
     Decision res <> DecisionAllow ->
     counters tr = [(getMetricsHandler a scope (namespaceOf req),
                     ServiceErrUnauthorizedCounter, 1%Z)]) /\
  ServiceErrAuthorizeFailedCounter <> ServiceErrUnauthorizedCounter /\
  (forall authInfo claims e,
     In (EvGetClaims authInfo (claims, Some e)) tr ->
     counters tr = [] /\
     In (EvLogError (logger a) "Authorization error" e) tr) /\
  (forall ctx' claims target res,
     In (EvAuthorize ctx' claims target (res, None)) tr ->
     Decision res = DecisionAllow ->
     counters tr = []) /\
  (authorizerCalls tr = [] -> counters tr = []).
Proof.
  intros Hrun. cases Hrun.
  all: repeat match goal with |- _ /\ _ => split end.
  all: try discriminate.
  all: try (intros c cl t r e' Hin; in_trace Hin; observe; reflexivity).
  all: try (intros c cl t r Hin Hd; in_trace Hin; observe;
            (reflexivity || congruence)).
  all: try (intros ai cl e' Hin; in_trace Hin; observe;
            (split; [reflexivity|found])).
  all: try (intros Hn; observe; (reflexivity || discriminate Hn)).
Qed.

(** C5, as amended.  On a call with a verified client certificate, when both
    a claim mapper and an authorizer are configured and the mapper declares
    evidence required, the mapper is invoked (once) and the [AuthInfo] it
    receives has [TLSSubject] set to the subject of that certificate. *)
Theorem certificate_subject_reaches_mapper a ctx req info handler w cm az cert out w' tr :
  claimMapper a = Some cm -> authorizer a = Some az ->
  declaresRequired cm w = true ->
  PeerCert (TLSInfoFormContext ctx) = Done (Some cert) ->
  Interceptor scope a ctx req info handler w = (out, w', tr) ->
  exists authInfo,
    mapperCalls tr = [authInfo] /\
    TLSSubject authInfo = Some (Subject cert).
Proof.
  intros Hcm Haz _ Hcert Hrun.
  assert (Hdue : mappingDue a ctx w).
  { apply (mappingDue_iff a ctx w cm az Hcm Haz). left. exists cert. exact Hcert. }
  rewrite PeerCert_Done in Hcert. injection Hcert as Hleaf.
  cases Hrun.
  all: try match goal with
         | H : claimMapper _ = None \/ authorizer _ = None |- _ =>
             destruct H; congruence
         | H : ~ mappingDue _ _ _ |- _ => contradiction
         end.
  all: match goal with
       | H : evidenceOf _ _ ?ai |- _ =>
           exists ai; destruct H as (_ & Hs & _); rewrite Hleaf in Hs
       end.
  all: observe; split; [reflexivity|assumption].
Qed.

(** C6.  When the authorizer returns, without error, the verdict deny with
    reason "missing scope", the interceptor returns a [nil] response and the
    permission-denied error whose reason is exactly "missing scope", and the
    handler is not invoked. *)
Theorem deny_reason_is_surfaced a ctx req info handler w out w' tr
    ctx' claims target :
  Interceptor scope a ctx req info handler w = (out, w', tr) ->
  In (EvAuthorize ctx' claims target
        ({| Decision := DecisionDeny; Reason := "missing scope" |}, None))
     tr ->
  out = Done (None, Some (NewPermissionDenied RequestUnauthorized
                            "missing scope")) /\
  handlerCalls tr = [].
Proof.
  intros Hrun Hin. cases Hrun.
  all: in_trace Hin.
  all: try match goal with H : Decision _ = DecisionAllow |- _ =>
             discriminate H end.
  all: observe; split; reflexivity.
Qed.

(** C7.  With neither a claim mapper nor an authorizer configured, the only
    thing a call does is to invoke the handler with the incoming context and
    request; what the handler returns is returned as it is, and no metric is
    recorded. *)
Theorem open_access_forwards_unchanged a ctx req info handler w :
  claimMapper a = None -> authorizer a = None ->
  Interceptor scope a ctx req info handler w =
    (Done (handler ctx req w).1, (handler ctx req w).2,
     [EvHandler ctx req (handler ctx req w).1]) /\
  metricHandles (Interceptor scope a ctx req info handler w).2 = [].
Proof.
  intros Hcm Haz.
  assert (Hrun : Interceptor scope a ctx req info handler w =
    (Done (handler ctx req w).1, (handler ctx req w).2,
     [EvHandler ctx req (handler ctx req w).1])).
  { unfold Interceptor, mapClaimsBlock, authorizeBlock.
    rewrite Hcm, Haz. unfold bind, ret, call; simpl.
    destruct (handler ctx req w) as [result w1]. reflexivity. }
  rewrite Hrun. split; reflexivity.
Qed.


(** *** Metrics scoping *)

Lemma unknown_tag_iff a ns :
  getMetricsHandler a scope ns =
    WithTags (metricsHandler a) [OperationTag scope; NamespaceUnknownTag] <->
  ns = "".
Proof.
  unfold getMetricsHandler. split.
  - intros H. destruct (decide (ns = "")) as [|Hne]; [assumption|].
    rewrite bool_decide_eq_true_2 in H by exact Hne.
    unfold WithTags in H. injection H as H.
    apply app_inv_head in H. discriminate H.
  - intros ->. reflexivity.
Qed.

(** C8.  On a call whose request has a namespace accessor that returns "ns1":
    every invocation of the authorizer has a target with namespace "ns1" and
    the full method name of the call; every counter and timer is recorded on
    the handle tagged with the operation and the namespace tag "ns1"; a
    configured authorizer is invoked exactly once, on that target and with a
    metric on that handle, unless claim mapping failed before.  For any
    namespace, [getMetricsHandler] uses the unknown-namespace tag exactly
    when the namespace is empty. *)
Theorem namespace_scopes_target_and_metrics a ctx req info handler w out w' tr :
  as_hasNamespace req = Some "ns1" ->
  Interceptor scope a ctx req info handler w = (out, w', tr) ->
  (forall ctx' claims target,
     In (ctx', claims, target) (authorizerCalls tr) ->
     Namespace target = "ns1" /\ APIName target = FullMethod info) /\
  (forall h,
     In h (metricHandles tr) ->
     h = WithTags (metricsHandler a)
           [OperationTag scope; NamespaceTag "ns1"]) /\
  (authorizer a <> None ->
   (forall authInfo claims e,
      ~ In (EvGetClaims authInfo (claims, Some e)) tr) ->
   exists ctx' claims,
     authorizerCalls tr = [(ctx', claims, targetOf req info)] /\
     In (getMetricsHandler a scope "ns1") (metricHandles tr)) /\
  (forall ns,
     getMetricsHandler a scope ns =
       WithTags (metricsHandler a) [OperationTag scope; NamespaceUnknownTag]
     <-> ns = "").
Proof.
  intros Hns Hrun.
  assert (Hn : namespaceOf req = "ns1") by (unfold namespaceOf; rewrite Hns; reflexivity).
  assert (Hh : getMetricsHandler a scope "ns1" =
               WithTags (metricsHandler a)
                 [OperationTag scope; NamespaceTag "ns1"]) by reflexivity.
  cases Hrun.
  all: (split; [|split; [|split; [|apply unknown_tag_iff]]]).
  all: try (intros c cl t Hin; observe; in_trace Hin;
            unfold targetOf; simpl; rewrite Hn; split; reflexivity).
  all: try (intros h Hin; observe; in_trace Hin; rewrite Hn; exact Hh).
  all: intros Hcfg Hok.
  all: try contradiction.
  all: try (exfalso; eapply Hok; found).
  all: observe; rewrite ?Hn; do 2 eexists; (split; [reflexivity|found]).
Qed.

(** C9.  The context the handler is invoked with is the incoming one (and then
    no mapping succeeded), or the incoming one with the claims slot on top
    (mapping succeeded, empty header), or with the claims slot and the header
    slot on top (mapping succeeded, non-empty header).  So a header slot that
    is not the caller's own comes with a claims slot, and after a successful
    mapping the claims slot holds the returned claims, [nil] included. *)
Theorem auth_header_slot_implies_claims_slot a ctx req info handler w out w' tr ctx' req' :
  Interceptor scope a ctx req info handler w = (out, w', tr) ->
  In (ctx', req') (handlerCalls tr) ->
  (ctx' = ctx /\
   (forall authInfo claims, ~ In (EvGetClaims authInfo (claims, None)) tr)
   \/
   exists authInfo claims,
     In (EvGetClaims authInfo (claims, None)) tr /\
     (AuthToken authInfo = "" /\
      ctx' = WithValue ctx MappedClaims (ClaimsValue claims)
      \/
      AuthToken authInfo <> "" /\
      ctx' = WithValue (WithValue ctx MappedClaims (ClaimsValue claims))
               AuthHeader (StringValue (AuthToken authInfo)))) /\
  (Value ctx AuthHeader = None ->
   Value ctx' AuthHeader <> None -> Value ctx' MappedClaims <> None) /\
  (forall authInfo claims,
     In (EvGetClaims authInfo (claims, None)) tr ->
     Value ctx' MappedClaims = Some (ClaimsValue claims)).
Proof.
  intros Hrun Hin. cases Hrun.
  all: observe; in_trace Hin.
  all: (split; [|split]).
  all: try (intros ai cl Hg; in_trace Hg; unfold enriched;
            destruct (bool_decide (AuthToken _ <> "")); reflexivity).
  all: try (intros Ha Hb; congruence).
  all: try (left; split; [reflexivity|intros ai cl Hg; in_trace Hg]; fail).
  all: try (right; do 2 eexists; (split; [found|]); unfold enriched;
            match goal with
            | |- context [bool_decide (AuthToken ?ai <> "")] =>
                destruct (decide (AuthToken ai = "")) as [He|He]
            end;
            [left; rewrite bool_decide_eq_false_2 by (intros Hx; apply Hx, He)
            |right; rewrite bool_decide_eq_true_2 by exact He];
            (split; [assumption|reflexivity])).
  all: intros _ _; unfold enriched;
       destruct (bool_decide (AuthToken _ <> "")); discriminate.
Qed.

(** C10.  [PeerCert] never panics: it returns the leaf of the first verified
    chain, which is [nil] for a [nil] argument, for no chain and for an empty
    first chain, and the first entry of the first chain otherwise.
    [TLSInfoFormContext] is a total function that returns the TLS info of
    the peer exactly when the context has a peer whose auth info is one. *)
Theorem PeerCert_total :
  (forall tlsInfo, PeerCert tlsInfo = Done (leafOfFirstChain tlsInfo)) /\
  PeerCert None = Done None /\
  (forall t, VerifiedChains (State t) = [] -> PeerCert (Some t) = Done None) /\
  (forall t rest,
     VerifiedChains (State t) = [] :: rest -> PeerCert (Some t) = Done None) /\
  (forall t cert chain rest,
     VerifiedChains (State t) = (cert :: chain) :: rest ->
     PeerCert (Some t) = Done cert) /\
  (forall (ctx : Ctx Claims) t,
     TLSInfoFormContext ctx = Some t <->
     exists p, ctxPeer ctx = Some p /\ PeerAuthInfo p = Some (TLSAuthInfo t)) /\
  (forall (ctx : Ctx Claims),
     PeerCert (TLSInfoFormContext ctx) =
       Done (leafOfFirstChain (TLSInfoFormContext ctx))).
Proof.
  split; [apply PeerCert_Done|].
  split; [reflexivity|].
  split; [intros t H; rewrite PeerCert_Done; simpl; rewrite H; reflexivity|].
  split; [intros t rest H; rewrite PeerCert_Done; simpl; rewrite H; reflexivity|].
  split; [intros t c ch rest H; rewrite PeerCert_Done; simpl; rewrite H; reflexivity|].
  split; [|intros; apply PeerCert_Done].
  intros ctx t. unfold TLSInfoFormContext, peer_FromContext. split.
  - destruct (ctxPeer ctx) as [p|]; [|discriminate].
    destruct (PeerAuthInfo p) as [[t'|other]|] eqn:Hp; try discriminate.
    intros [= ->]. exists p. split; [reflexivity|exact Hp].
  - intros (p & -> & ->). reflexivity.
Qed.

(** ** Further properties of the interceptor *)

Ltac observe_all :=
  unfold timers, logged, audienceCalls, collaboratorErrors in *; observe.

(** A mapping that is due has an authorizer behind it. *)
Ltac due_configured :=
  match goal with
  | Hd : mappingDue _ _ _, Hn : authorizer _ = None |- _ =>
      destruct Hd as (? & ? & _ & ? & _); congruence
  | Hd : mappingDue _ _ _,
    Hn : claimMapper _ = None \/ authorizer _ = None |- _ =>
      destruct Hd as (? & ? & ? & ? & _); destruct Hn; congruence
  end.


(** X2.  Whenever the claim mapper is invoked, the token it is given is the
    first value of the primary header and the extra data the first value of
    the extra header (the empty string without values), the TLS connection
    is the peer's TLS info and the subject is that of the leaf of its first
    verified chain. *)
Theorem mapper_receives_first_header_values a ctx req info handler w out w' tr
    authInfo answer :
  Interceptor scope a ctx req info handler w = (out, w', tr) ->
  In (EvGetClaims authInfo answer) tr ->
  AuthToken authInfo
  = default "" (head (incomingHeader ctx (authHeaderName a))) /\
  ExtraData authInfo
  = default "" (head (incomingHeader ctx (authExtraHeaderName a))) /\
  TLSConnection authInfo = TLSInfoFormContext ctx /\
  TLSSubject authInfo
  = match leafOfFirstChain (TLSInfoFormContext ctx) with
    | Some cert => Some (Subject cert)
    | None => None
    end.
Proof.
  intros Hrun Hin. cases Hrun.
  all: in_trace Hin.
  all: match goal with
       | H : evidenceOf _ _ _ |- _ => destruct H as (Ht & Hs & Hc & Hx)
       end.
  all: repeat split; assumption.
Qed.

(** X4.  Nothing is retried: on one call the claim mapper, the authorizer
    and the handler are each invoked at most once. *)
Theorem collaborators_invoked_at_most_once a ctx req info handler w out w' tr :
  Interceptor scope a ctx req info handler w = (out, w', tr) ->
  length (mapperCalls tr) <= 1 /\
  length (authorizerCalls tr) <= 1 /\
  length (handlerCalls tr) <= 1.
Proof.
  intros Hrun. cases Hrun.
  all: observe; simpl; lia.
Qed.

(** X5.  The latency timer is recorded once for every invocation of the
    authorizer, whatever its outcome, on the handle of the request's
    namespace, and it is the event that follows the invocation. *)
Theorem latency_timer_follows_authorizer a ctx req info handler w out w' tr :
  Interceptor scope a ctx req info handler w = (out, w', tr) ->
  timers tr
  = map (fun _ => (getMetricsHandler a scope (namespaceOf req),
                   ServiceAuthorizationLatency))
        (authorizerCalls tr) /\
  (forall ctx' claims target answer,
     In (EvAuthorize ctx' claims target answer) tr ->
     exists before after,
       tr = before ++
            EvAuthorize ctx' claims target answer ::
            EvTimer (getMetricsHandler a scope (namespaceOf req))
              ServiceAuthorizationLatency :: after).
Proof.
  intros Hrun. cases Hrun.
  all: split; [observe_all; reflexivity|].
  all: intros c cl t ans Hin; in_trace Hin.
  all: simpl;
       match goal with
       | |- exists before after, ?m ++ _ :: _ :: ?rest = _ =>
           exists m, rest; reflexivity
       | |- exists before after, _ :: _ :: ?rest = _ =>
           exists [], rest; reflexivity
       end.
Qed.

(** X6.  What is logged is exactly the errors the claim mapper and the
    authorizer returned, each with the message "Authorization error" on the
    interceptor's logger: a denial or an error of the handler is not
    logged. *)
Theorem collaborator_errors_are_logged a ctx req info handler w out w' tr :
  Interceptor scope a ctx req info handler w = (out, w', tr) ->
  logged tr
  = map (fun err => (logger a, "Authorization error", err))
        (collaboratorErrors tr).
Proof.
  intros Hrun. cases Hrun.
  all: observe_all; reflexivity.
Qed.

(** X8.  When the authorizer allows the call, the handler is invoked with the
    very context the authorizer was given and with the incoming request; its
    call is the last event of the trace and its answer is returned as it
    is. *)
Theorem allowed_call_is_forwarded a ctx req info handler w out w' tr
    ctx' claims target res :
  Interceptor scope a ctx req info handler w = (out, w', tr) ->
  In (EvAuthorize ctx' claims target (res, None)) tr ->
  Decision res = DecisionAllow ->
  exists answer before,
    tr = before ++ [EvHandler ctx' req answer] /\
    handlerCalls before = [] /\
    out = Done answer.
Proof.
  intros Hrun Hin Hallow. cases Hrun.
  all: in_trace Hin.
  all: try congruence.
  all: do 2 eexists; (split; [rewrite app_assoc; reflexivity|]).
  all: observe; split; reflexivity.
Qed.

(** X9.  When the authorizer denies the call, the permission-denied error
    carries the reason of the verdict as it is, empty or not, and the
    handler is not invoked. *)
Theorem denied_call_carries_the_reason a ctx req info handler w out w' tr
    ctx' claims target res :
  Interceptor scope a ctx req info handler w = (out, w', tr) ->
  In (EvAuthorize ctx' claims target (res, None)) tr ->
  Decision res = DecisionDeny ->
  out = Done (None, Some (PermissionDenied RequestUnauthorized (Reason res)))
  /\ handlerCalls tr = [].
Proof.
  intros Hrun Hin Hdeny. cases Hrun.
  all: in_trace Hin.
  all: try congruence.
  all: observe; (split; [|reflexivity]).
  all: destruct (decide (Reason res = "")) as [He|He];
       [rewrite bool_decide_eq_false_2 by (intros Hx; apply Hx, He);
        rewrite He; reflexivity
       |rewrite bool_decide_eq_true_2 by exact He; reflexivity].
Qed.

(** X10.  The interceptor leaves alone what it does not own: a context it
    hands to the authorizer or the handler has the metadata and the peer of
    the incoming one and the same value under every key other than its two
    slots, and the request reaches the authorizer and the handler as it
    came. *)
Theorem context_and_request_are_preserved a ctx req info handler w out w' tr :
  Interceptor scope a ctx req info handler w = (out, w', tr) ->
  (forall ctx',
     In ctx' (contextsPassed tr) ->
     incomingMD ctx' = incomingMD ctx /\
     ctxPeer ctx' = ctxPeer ctx /\
     forall name, Value ctx' (OtherKey name) = Value ctx (OtherKey name)) /\
  (forall ctx' claims target,
     In (ctx', claims, target) (authorizerCalls tr) ->
     Request target = req) /\
  (forall ctx' req',
     In (ctx', req') (handlerCalls tr) -> req' = req).
Proof.
  intros Hrun. cases Hrun.
  all: (split; [|split]).
  all: try (intros c cl t Hin; observe; in_trace Hin; reflexivity).
  all: try (intros c r Hin; observe; in_trace Hin; reflexivity).
  all: intros c Hin; observe; in_trace Hin.
  all: unfold enriched; try destruct (bool_decide (AuthToken _ <> ""));
       repeat split.
Qed.

(** X11.  The claims of a successful mapping are what the authorizer decides
    on: it is then invoked exactly once, with those claims, with the
    incoming context enriched by them and with the target of the call. *)
Theorem mapped_claims_reach_authorizer a ctx req info handler w out w' tr
    authInfo claims :
  Interceptor scope a ctx req info handler w = (out, w', tr) ->
  In (EvGetClaims authInfo (claims, None)) tr ->
  authorizerCalls tr
  = [(enriched ctx claims (AuthToken authInfo), claims, targetOf req info)].
Proof.
  intros Hrun Hin. cases Hrun.
  all: in_trace Hin.
  all: try due_configured.
  all: observe; reflexivity.
Qed.

(** X12.  A failure of the claim mapper ends the call on the spot: the
    authorizer is not consulted, no metric is recorded, not even the latency
    timer, and the log entry is the last event. *)
Theorem mapper_failure_ends_the_call a ctx req info handler w out w' tr
    authInfo claims e :
  Interceptor scope a ctx req info handler w = (out, w', tr) ->
  In (EvGetClaims authInfo (claims, Some e)) tr ->
  authorizerCalls tr = [] /\
  metricHandles tr = [] /\
  exists before,
    tr = before ++ [EvGetClaims authInfo (claims, Some e);
                    EvLogError (logger a) "Authorization error" e].
Proof.
  intros Hrun Hin. cases Hrun.
  all: in_trace Hin.
  observe. repeat split. eexists. reflexivity.
Qed.

(** *** The audience getter and the unconfigured mapper *)

(** The first block on its own: how it uses the audience getter. *)
Lemma mapClaimsBlock_audience a ctx req info w r w' t :
  mapClaimsBlock a ctx req info w = (r, w', t) ->
  (audienceCalls t = [] \/
   exists s, audienceCalls t = [(ctx, req, info, s)]) /\
  (audienceCalls t <> [] <->
   audienceGetter a <> None /\ mapperCalls t <> []) /\
  (forall authInfo answer,
     In (EvGetClaims authInfo answer) t ->
     Audience authInfo = default "" (head (map snd (audienceCalls t)))).
Proof.
  unfold mapClaimsBlock.
  destruct (claimMapper a) as [cm|];
    [|intros [= <- <- <-]; split; [left; reflexivity|];
      split; [split; [intros []; reflexivity|intros [_ []]; reflexivity]|];
      intros ? ? []].
  destruct (authorizer a) as [az|];
    [|intros [= <- <- <-]; split; [left; reflexivity|];
      split; [split; [intros []; reflexivity|intros [_ []]; reflexivity]|];
      intros ? ? []].
  erewrite bind_Done by (unfold lift; rewrite PeerCert_Done; reflexivity).
  assert (Hreq : exists b w1 t1,
             match AuthInfoRequired cm with
             | Some f => call (Claims:=Claims) f EvAuthInfoRequired
             | None => ret true
             end w = (Done b, w1, t1) /\
             (t1 = [] \/ t1 = [EvAuthInfoRequired b])).
  { unfold call, ret. destruct (AuthInfoRequired cm) as [f|].
    - destruct (f w) as [b w1]. exists b, w1, [EvAuthInfoRequired b]. auto.
    - exists true, w, []. auto. }
  destruct Hreq as (b & w1 & t1 & Hrun1 & Ht1).
  erewrite bind_Done by exact Hrun1.
  destruct (_ || _ || _).
  - erewrite bind_Done by apply first_value.
    erewrite bind_Done by apply first_value.
    destruct (audienceGetter a) as [g|].
    + rewrite bind_call.
      destruct (AudienceOf g ctx req info w1) as [s w2]. simpl.
      rewrite bind_call.
      match goal with |- context [GetClaims cm ?ai w2] =>
        destruct (GetClaims cm ai w2) as [[claims [e|]] w3] end.
      all: simpl; intros [= <- <- <-].
      all: destruct Ht1 as [-> | ->]; unfold audienceCalls, mapperCalls; simpl.
      all: (split; [right; eexists; reflexivity|]).
      all: (split; [split; [intros _; split; discriminate|discriminate]|]).
      all: intros ai ans Hin; in_trace Hin; reflexivity.
    + erewrite bind_Done by reflexivity.
      rewrite bind_call.
      match goal with |- context [GetClaims cm ?ai w1] =>
        destruct (GetClaims cm ai w1) as [[claims [e|]] w3] end.
      all: simpl; intros [= <- <- <-].
      all: destruct Ht1 as [-> | ->]; unfold audienceCalls, mapperCalls; simpl.
      all: (split; [left; reflexivity|]).
      all: (split; [split; [intros []; reflexivity|intros [[] _]; reflexivity]|]).
      all: intros ai ans Hin; in_trace Hin; reflexivity.
  - unfold ret, prefixed. intros [= <- <- <-].
    destruct Ht1 as [-> | ->]; unfold audienceCalls, mapperCalls; simpl.
    all: (split; [left; reflexivity|]).
    all: (split; [split; [intros []; reflexivity|intros [_ []]; reflexivity]|]).
    all: intros ai ans Hin; in_trace Hin.
Qed.

(** A call is its first block followed by events that involve neither the
    claim mapper nor the audience getter. *)
Lemma Interceptor_after_mapping a ctx req info handler w out w' tr :
  Interceptor scope a ctx req info handler w = (out, w', tr) ->
  exists r1 w1 t1 t2,
    mapClaimsBlock a ctx req info w = (r1, w1, t1) /\
    tr = t1 ++ t2 /\
    audienceCalls t2 = [] /\ mapperCalls t2 = [] /\
    (forall authInfo answer, ~ In (EvGetClaims authInfo answer) t2).
Proof.
  unfold Interceptor. intros Hrun.
  destruct (mapClaimsBlock_cases a ctx req info w)
    as (w1 & [(pre & authInfo & claims & e & _ & _ & _ & Hm)
             |(trM & claims & ctx' & _ & Hm)]);
    erewrite bind_Done in Hrun by exact Hm; cbv beta iota in Hrun.
  - unfold ret, prefixed in Hrun. injection Hrun as _ _ <-.
    do 3 eexists. exists []. split; [exact Hm|].
    repeat split. intros ? ? [].
  - destruct (authorizeBlock_cases a ctx' claims req info w1)
      as (v & w2 & trV & Hv & HV).
    erewrite bind_Done in Hrun by exact Hv.
    destruct v as [rejected|].
    + unfold ret, prefixed in Hrun. injection Hrun as _ _ <-.
      do 3 eexists. exists (trV ++ []). split; [exact Hm|].
      inversion HV; subst; repeat split;
        intros ai ans Hin; in_trace Hin.
    + unfold call, prefixed in Hrun.
      destruct (handler ctx' req w2) as [result w3].
      injection Hrun as _ _ <-.
      do 3 eexists. exists (trV ++ [EvHandler ctx' req result]).
      split; [exact Hm|].
      inversion HV; subst; repeat split;
        intros ai ans Hin; in_trace Hin.
Qed.

(** X3.  The audience getter is asked at most once on a call, with the
    incoming context, request and method info, and exactly when one is
    configured and the claim mapper is invoked; the mapper is given its
    answer as audience, and the empty string when there is no getter. *)
Theorem audience_is_resolved_for_the_mapper a ctx req info handler w out w' tr :
  Interceptor scope a ctx req info handler w = (out, w', tr) ->
  (audienceCalls tr = [] \/
   exists s, audienceCalls tr = [(ctx, req, info, s)]) /\
  (audienceCalls tr <> [] <->
   audienceGetter a <> None /\ mapperCalls tr <> []) /\
  (forall authInfo answer,
     In (EvGetClaims authInfo answer) tr ->
     Audience authInfo = default "" (head (map snd (audienceCalls tr)))).
Proof.
  intros Hrun.
  destruct (Interceptor_after_mapping _ _ _ _ _ _ _ _ _ Hrun)
    as (r1 & w1 & t1 & t2 & Hm & -> & Ha & Hc & Hg).
  destruct (mapClaimsBlock_audience _ _ _ _ _ _ _ _ Hm) as (H1 & H2 & H3).
  assert (Ea : audienceCalls (t1 ++ t2) = audienceCalls t1).
  { unfold audienceCalls in *. rewrite omap_app, Ha. apply app_nil_r. }
  assert (Ec : mapperCalls (t1 ++ t2) = mapperCalls t1).
  { unfold mapperCalls in *. rewrite omap_app, Hc. apply app_nil_r. }
  rewrite Ea, Ec. split; [exact H1|]. split; [exact H2|].
  intros ai ans Hin. apply in_app_or in Hin. destruct Hin as [Hin|Hin].
  - exact (H3 _ _ Hin).
  - destruct (Hg _ _ Hin).
Qed.

(** X7.  An authorizer without a claim mapper still decides: the evidence is
    not looked at, neither the mapper nor the audience getter is invoked,
    and the authorizer is called once with the incoming context, [nil]
    claims and the target of the call; a handler that is reached gets the
    incoming context. *)
Theorem authorizer_decides_without_mapper a ctx req info handler w az
    out w' tr :
  claimMapper a = None -> authorizer a = Some az ->
  Interceptor scope a ctx req info handler w = (out, w', tr) ->
  mapperCalls tr = [] /\
  audienceCalls tr = [] /\
  authorizerCalls tr = [(ctx, None, targetOf req info)] /\
  (forall ctx' req', In (ctx', req') (handlerCalls tr) -> ctx' = ctx).
Proof.
  intros Hcm Haz Hrun. unfold Interceptor in Hrun.
  assert (Hm : mapClaimsBlock a ctx req info w
               = (Done (inr (None, ctx)), w, []))
    by (unfold mapClaimsBlock; rewrite Hcm; reflexivity).
  erewrite bind_Done in Hrun by exact Hm. cbv beta iota in Hrun.
  destruct (authorizeBlock_cases a ctx None req info w)
    as (v & w2 & trV & Hv & HV).
  erewrite bind_Done in Hrun by exact Hv.
  inversion HV; subst; try congruence.
  all: unfold ret, call, prefixed in Hrun;
       try destruct (handler ctx req w2) as [result w3];
       injection Hrun as _ _ <-.
  all: observe_all; repeat split.
  all: intros c r Hin; in_trace Hin; reflexivity.
Qed.

(** X13.  The header names of an interceptor built by
    [NewAuthorizationInterceptor] are the ones it is given, and the fixed
    "authorization" and "authorization-extras" in place of an empty one:
    the token and the extra data the claim mapper receives are the first
    values of the metadata under those names. *)
Theorem constructed_interceptor_reads_named_headers cm az mh l ag name extra
    ctx req info handler w out w' tr md authInfo answer :
  Interceptor scope (NewAuthorizationInterceptor cm az mh l ag name extra)
    ctx req info handler w = (out, w', tr) ->
  FromIncomingContext ctx = Some md ->
  In (EvGetClaims authInfo answer) tr ->
  AuthToken authInfo
  = default "" (head (default [] (md !! (if decide (name = "")
                                         then "authorization"
                                         else name)))) /\
  ExtraData authInfo
  = default "" (head (default [] (md !! (if decide (extra = "")
                                         then "authorization-extras"
                                         else extra)))).
Proof.
  intros Hrun Hmd Hin.
  assert (Hn : forall x y : string,
             Coalesce x y = if decide (x = "") then y else x).
  { intros x y. unfold Coalesce.
    destruct (decide (x = "")) as [He|He].
    - rewrite bool_decide_eq_false_2 by (intros Hx; apply Hx, He).
      reflexivity.
    - rewrite bool_decide_eq_true_2 by exact He. reflexivity. }
  cases Hrun.
  all: in_trace Hin.
  all: match goal with
       | H : evidenceOf _ _ _ |- _ => destruct H as (Ht & _ & _ & Hx)
       end.
  all: rewrite Ht, Hx; unfold incomingHeader; rewrite Hmd;
       unfold md_index; cbn [authHeaderName authExtraHeaderName
                             NewAuthorizationInterceptor];
       rewrite !Hn; split; reflexivity.
Qed.

End Properties.

(** ** The properties at the sample calls *)

Import Sample.

(** C1 at a call over mTLS whose claim mapper fails: the caller gets the
    generic error and the handler is not invoked. *)
Lemma interceptor_errors_are_generic_witness :
  exists w' tr,
    Interceptor scope (configured (Some mapperFailing) (Some allowAll))
      tlsCtx startRequest startInfo echo 0
    = (Done (None, Some errUnauthorized), w', tr) /\
    handlerCalls tr = [].
Proof.
  pose (run := Interceptor scope
                 (configured (Some mapperFailing) (Some allowAll))
                 tlsCtx startRequest startInfo echo 0).
  assert (Hrun : run = (run.1.1, run.1.2, run.2)) by (vm_compute; reflexivity).
  destruct (interceptor_errors_are_generic scope _ _ _ _ _ _ _ _ _ Hrun)
    as (result & Hout & _ & Hmapper & _ & _).
  exists run.1.2, run.2. split.
  - vm_compute. reflexivity.
  - eapply Hmapper. vm_compute. left. reflexivity.
Defined.

(** C2 at a call without certificate or header, the mapper requiring
    evidence: no mapping, the authorizer sees no claims. *)
Lemma claim_mapper_invoked_iff_evidence_witness :
  mapperCalls
    (Interceptor scope (configured (Some mapperOk) (Some allowAll))
       bareCtx startRequest startInfo echo 0).2 = [] /\
  authorizerCalls
    (Interceptor scope (configured (Some mapperOk) (Some allowAll))
       bareCtx startRequest startInfo echo 0).2
  = [(bareCtx, None, targetOf startRequest startInfo)].
Proof.
  pose (run := Interceptor scope (configured (Some mapperOk) (Some allowAll))
                 bareCtx startRequest startInfo echo 0).
  assert (Hrun : run = (run.1.1, run.1.2, run.2)) by (vm_compute; reflexivity).
  apply (claim_mapper_invoked_iff_evidence scope
           (configured (Some mapperOk) (Some allowAll)) bareCtx startRequest
           startInfo echo 0 mapperOk allowAll _ _ _ eq_refl eq_refl Hrun).
  intros [[cert H]|[H|H]].
  - vm_compute in H. discriminate H.
  - apply H. vm_compute. reflexivity.
  - vm_compute in H. discriminate H.
Defined.


(** C4 (amended) at a call whose authorizer fails: one increment of the
    failure counter, on the handle of namespace "ns1". *)
Lemma counters_of_authorization_outcomes_witness :
  In (EvAuthorize (enriched tlsCtx (Some "") "") (Some "")
        (targetOf startRequest startInfo)
        ({| Decision := DecisionDeny; Reason := "" |},
         Some (OtherError "policy backend unreachable")))
     (Interceptor scope (configured (Some mapperOk) (Some brokenAuthorizer))
        tlsCtx startRequest startInfo echo 0).2 /\
  counters
    (Interceptor scope (configured (Some mapperOk) (Some brokenAuthorizer))
       tlsCtx startRequest startInfo echo 0).2
  = [({| tags := [OperationTag scope; NamespaceTag "ns1"] |},
      ServiceErrAuthorizeFailedCounter, 1%Z)].
Proof.
  pose (run := Interceptor scope
                 (configured (Some mapperOk) (Some brokenAuthorizer))
                 tlsCtx startRequest startInfo echo 0).
  assert (Hrun : run = (run.1.1, run.1.2, run.2)) by (vm_compute; reflexivity).
  assert (Hin : In (EvAuthorize (enriched tlsCtx (Some "") "") (Some "")
                      (targetOf startRequest startInfo)
                      ({| Decision := DecisionDeny; Reason := "" |},
                       Some (OtherError "policy backend unreachable")))
                   run.2)
    by (vm_compute; right; left; reflexivity).
  split; [exact Hin|].
  exact (proj1 (counters_of_authorization_outcomes scope _ _ _ _ _ _ _ _ _
                  Hrun) _ _ _ _ _ Hin).
Defined.

(** C5 (amended) at a call over mTLS: the mapper is given the subject of the
    client certificate. *)
Lemma certificate_subject_reaches_mapper_witness :
  exists authInfo,
    mapperCalls
      (Interceptor scope (configured (Some mapperOk) (Some allowAll))
         tlsCtx startRequest startInfo echo 0).2 = [authInfo] /\
    TLSSubject authInfo = Some clientName.
Proof.
  pose (run := Interceptor scope (configured (Some mapperOk) (Some allowAll))
                 tlsCtx startRequest startInfo echo 0).
  assert (Hrun : run = (run.1.1, run.1.2, run.2)) by (vm_compute; reflexivity).
  assert (Hcert : PeerCert (TLSInfoFormContext tlsCtx) = Done (Some clientCert))
    by (vm_compute; reflexivity).
  exact (certificate_subject_reaches_mapper scope
           (configured (Some mapperOk) (Some allowAll)) tlsCtx startRequest
           startInfo echo 0 mapperOk allowAll clientCert _ _ _
           eq_refl eq_refl eq_refl Hcert Hrun).
Defined.

(** C6 at a call with a bearer token that the authorizer denies for a
    missing scope. *)
Lemma deny_reason_is_surfaced_witness :
  (Interceptor scope (configured (Some mapperOk) (Some denyMissingScope))
     bearerCtx startRequest startInfo echo 0).1.1
  = Done (None, Some (PermissionDenied "Request unauthorized."
                        "missing scope")) /\
  handlerCalls
    (Interceptor scope (configured (Some mapperOk) (Some denyMissingScope))
       bearerCtx startRequest startInfo echo 0).2 = [].
Proof.
  pose (run := Interceptor scope
                 (configured (Some mapperOk) (Some denyMissingScope))
                 bearerCtx startRequest startInfo echo 0).
  assert (Hrun : run = (run.1.1, run.1.2, run.2)) by (vm_compute; reflexivity).
  assert (Hin : In (EvAuthorize (enriched bearerCtx (Some "tokA") "tokA")
                      (Some "tokA") (targetOf startRequest startInfo)
                      ({| Decision := DecisionDeny;
                          Reason := "missing scope" |}, None))
                   run.2)
    by (vm_compute; right; left; reflexivity).
  exact (deny_reason_is_surfaced scope _ _ _ _ _ _ _ _ _ _ _ _ Hrun Hin).
Defined.

(** C7 at a call with a bearer token on an interceptor without collaborators:
    the handler's echo comes back, the trace is the handler call. *)
Lemma open_access_forwards_unchanged_witness :
  Interceptor scope (configured None None)
    bearerCtx startRequest startInfo echo 0
  = (Done (startRequest, None), 1,
     [EvHandler bearerCtx startRequest (startRequest, None)]).
Proof.
  exact (proj1 (open_access_forwards_unchanged scope (configured None None)
                  bearerCtx startRequest startInfo echo 0 eq_refl eq_refl)).
Defined.

(** C8 at an allowed call on namespace "ns1". *)
Lemma namespace_scopes_target_and_metrics_witness :
  exists ctx' claims,
    authorizerCalls
      (Interceptor scope (configured (Some mapperOk) (Some allowAll))
         bearerCtx startRequest startInfo echo 0).2
    = [(ctx', claims,
        {| Namespace := "ns1";
           APIName := "/WorkflowService/StartWorkflowExecution";
           Request := startRequest |})] /\
    In {| tags := [OperationTag scope; NamespaceTag "ns1"] |}
       (metricHandles
          (Interceptor scope (configured (Some mapperOk) (Some allowAll))
             bearerCtx startRequest startInfo echo 0).2).
Proof.
  pose (run := Interceptor scope (configured (Some mapperOk) (Some allowAll))
                 bearerCtx startRequest startInfo echo 0).
  assert (Hrun : run = (run.1.1, run.1.2, run.2)) by (vm_compute; reflexivity).
  destruct (namespace_scopes_target_and_metrics scope _ _ _ _ _ _ _ _ _
              (eq_refl : as_hasNamespace startRequest = Some "ns1") Hrun)
    as (_ & _ & Hinvoked & _).
  apply Hinvoked.
  - discriminate.
  - intros authInfo claims e H. vm_compute in H.
    destruct H as [H|[H|[H|[H|[]]]]]; discriminate H.
Defined.

(** C9 at an allowed call with a bearer token: the handler's context has the
    header slot and the claims slot. *)
Lemma auth_header_slot_implies_claims_slot_witness :
  In (enriched bearerCtx (Some "tokA") "tokA", startRequest)
     (handlerCalls
        (Interceptor scope (configured (Some mapperOk) (Some allowAll))
           bearerCtx startRequest startInfo echo 0).2) /\
  Value (enriched bearerCtx (Some "tokA") "tokA") MappedClaims <> None.
Proof.
  pose (run := Interceptor scope (configured (Some mapperOk) (Some allowAll))
                 bearerCtx startRequest startInfo echo 0).
  assert (Hrun : run = (run.1.1, run.1.2, run.2)) by (vm_compute; reflexivity).
  assert (Hin : In (enriched bearerCtx (Some "tokA") "tokA", startRequest)
                   (handlerCalls run.2))
    by (vm_compute; left; reflexivity).
  split; [exact Hin|].
  destruct (auth_header_slot_implies_claims_slot scope _ _ _ _ _ _ _ _ _ _ _
              Hrun Hin) as (_ & Hslots & _).
  apply Hslots.
  - reflexivity.
  - vm_compute. discriminate.
Defined.

(** ** Where the code departs from a claim *)


(** C4 as stated fails: a failing claim mapper is logged but no counter (and
    no metric at all) is recorded; a call without any evidence that the
    authorizer allows records no counter either. *)
Lemma mapping_failure_records_no_counter :
  (Interceptor scope (configured (Some mapperFailing) (Some allowAll))
     bearerCtx startRequest startInfo echo 0).2
  = [EvGetClaims
       {| AuthToken := "tokA"; TLSSubject := None; TLSConnection := None;
          ExtraData := ""; Audience := "" |}
       (None, Some (OtherError "token signature invalid"));
     EvLogError {| loggerName := "frontend" |} "Authorization error"
       (OtherError "token signature invalid")] /\
  counters
    (Interceptor scope (configured (Some mapperFailing) (Some allowAll))
       bearerCtx startRequest startInfo echo 0).2 = [] /\
  mapperCalls
    (Interceptor scope (configured (Some mapperOk) (Some allowAll))
       bareCtx startRequest startInfo echo 0).2 = [] /\
  counters
    (Interceptor scope (configured (Some mapperOk) (Some allowAll))
       bareCtx startRequest startInfo echo 0).2 = [].
Proof. vm_compute. repeat split. Qed.

(** C5 as stated fails: with a claim mapper but no authorizer configured, a
    call with a verified client certificate is forwarded without the mapper
    being invoked. *)
Lemma mapper_not_invoked_without_authorizer :
  PeerCert (TLSInfoFormContext tlsCtx) = Done (Some clientCert) /\
  claimMapper (configured (Some mapperOk) None) = Some mapperOk /\
  declaresRequired mapperOk 0 = true /\
  Interceptor scope (configured (Some mapperOk) None)
    tlsCtx startRequest startInfo echo 0
  = (Done (startRequest, None), 1,
     [EvHandler tlsCtx startRequest (startRequest, None)]) /\
  mapperCalls
    (Interceptor scope (configured (Some mapperOk) None)
       tlsCtx startRequest startInfo echo 0).2 = [].
Proof. vm_compute. repeat split. Qed.

(** ** The further properties at the sample calls *)

Import SampleAudience.

(** X2 at a call with two values of the primary header and one of the extra
    header: the mapper gets the first of each. *)
Lemma mapper_receives_first_header_values_witness :
  In (EvGetClaims
        {| AuthToken := "tokA"; TLSSubject := None; TLSConnection := None;
           ExtraData := "x1"; Audience := "" |} (Some "tokA", None))
     (Interceptor scope (configured (Some mapperOk) (Some allowAll))
        extrasCtx startRequest startInfo echo 0).2 /\
  default "" (head (incomingHeader extrasCtx "authorization")) = "tokA" /\
  default "" (head (incomingHeader extrasCtx "authorization-extras")) = "x1".
Proof.
  pose (run := Interceptor scope (configured (Some mapperOk) (Some allowAll))
                 extrasCtx startRequest startInfo echo 0).
  assert (Hrun : run = (run.1.1, run.1.2, run.2)) by (vm_compute; reflexivity).
  assert (Hin : In (EvGetClaims
                      {| AuthToken := "tokA"; TLSSubject := None;
                         TLSConnection := None; ExtraData := "x1";
                         Audience := "" |} (Some "tokA", None)) run.2)
    by (vm_compute; left; reflexivity).
  split; [exact Hin|].
  destruct (mapper_receives_first_header_values scope _ _ _ _ _ _ _ _ _ _ _
              Hrun Hin) as (Ht & Hx & _ & _).
  split; [symmetry; exact Ht|symmetry; exact Hx].
Defined.

(** X3 at a call with a bearer token on an interceptor with an audience
    getter: one question, and its answer is the mapper's audience. *)
Lemma audience_is_resolved_for_the_mapper_witness :
  audienceCalls
    (Interceptor scope (withAudience (Some mapperOk) (Some allowAll))
       bearerCtx startRequest startInfo echo 0).2
  = [(bearerCtx, startRequest, startInfo, "temporal-frontend")] /\
  mapperCalls
    (Interceptor scope (withAudience (Some mapperOk) (Some allowAll))
       bearerCtx startRequest startInfo echo 0).2 <> [].
Proof.
  pose (run := Interceptor scope (withAudience (Some mapperOk) (Some allowAll))
                 bearerCtx startRequest startInfo echo 0).
  assert (Hrun : run = (run.1.1, run.1.2, run.2)) by (vm_compute; reflexivity).
  destruct (audience_is_resolved_for_the_mapper scope _ _ _ _ _ _ _ _ _ Hrun)
    as (_ & Hiff & _).
  split; [vm_compute; reflexivity|].
  apply Hiff. vm_compute. discriminate.
Defined.

(** X4 at an allowed call with a bearer token. *)
Lemma collaborators_invoked_at_most_once_witness :
  length (mapperCalls
            (Interceptor scope (configured (Some mapperOk) (Some allowAll))
               bearerCtx startRequest startInfo echo 0).2) <= 1 /\
  length (authorizerCalls
            (Interceptor scope (configured (Some mapperOk) (Some allowAll))
               bearerCtx startRequest startInfo echo 0).2) <= 1 /\
  length (handlerCalls
            (Interceptor scope (configured (Some mapperOk) (Some allowAll))
               bearerCtx startRequest startInfo echo 0).2) <= 1.
Proof.
  pose (run := Interceptor scope (configured (Some mapperOk) (Some allowAll))
                 bearerCtx startRequest startInfo echo 0).
  assert (Hrun : run = (run.1.1, run.1.2, run.2)) by (vm_compute; reflexivity).
  exact (collaborators_invoked_at_most_once scope _ _ _ _ _ _ _ _ _ Hrun).
Defined.

(** X5 at a call whose authorizer fails: the timer is still recorded. *)
Lemma latency_timer_follows_authorizer_witness :
  timers
    (Interceptor scope (configured (Some mapperOk) (Some brokenAuthorizer))
       tlsCtx startRequest startInfo echo 0).2
  = [({| tags := [OperationTag scope; NamespaceTag "ns1"] |},
      ServiceAuthorizationLatency)].
Proof.
  pose (run := Interceptor scope
                 (configured (Some mapperOk) (Some brokenAuthorizer))
                 tlsCtx startRequest startInfo echo 0).
  assert (Hrun : run = (run.1.1, run.1.2, run.2)) by (vm_compute; reflexivity).
  destruct (latency_timer_follows_authorizer scope _ _ _ _ _ _ _ _ _ Hrun)
    as (Htimers & _).
  fold run. rewrite Htimers. vm_compute. reflexivity.
Defined.

(** X6 at a call whose authorizer fails: its error is what is logged. *)
Lemma collaborator_errors_are_logged_witness :
  logged
    (Interceptor scope (configured (Some mapperOk) (Some brokenAuthorizer))
       tlsCtx startRequest startInfo echo 0).2
  = [({| loggerName := "frontend" |}, "Authorization error",
      OtherError "policy backend unreachable")].
Proof.
  pose (run := Interceptor scope
                 (configured (Some mapperOk) (Some brokenAuthorizer))
                 tlsCtx startRequest startInfo echo 0).
  assert (Hrun : run = (run.1.1, run.1.2, run.2)) by (vm_compute; reflexivity).
  fold run.
  rewrite (collaborator_errors_are_logged scope _ _ _ _ _ _ _ _ _ Hrun).
  vm_compute. reflexivity.
Defined.

(** X7 at a call with a bearer token on an interceptor with an authorizer
    only. *)
Lemma authorizer_decides_without_mapper_witness :
  mapperCalls
    (Interceptor scope (configured None (Some allowAll))
       bearerCtx startRequest startInfo echo 0).2 = [] /\
  authorizerCalls
    (Interceptor scope (configured None (Some allowAll))
       bearerCtx startRequest startInfo echo 0).2
  = [(bearerCtx, None, targetOf startRequest startInfo)].
Proof.
  pose (run := Interceptor scope (configured None (Some allowAll))
                 bearerCtx startRequest startInfo echo 0).
  assert (Hrun : run = (run.1.1, run.1.2, run.2)) by (vm_compute; reflexivity).
  destruct (authorizer_decides_without_mapper scope
              (configured None (Some allowAll)) bearerCtx startRequest
              startInfo echo 0 allowAll _ _ _ eq_refl eq_refl Hrun)
    as (Hm & _ & Ha & _).
  split; [exact Hm|exact Ha].
Defined.

(** X8 at an allowed call with a bearer token. *)
Lemma allowed_call_is_forwarded_witness :
  exists answer before,
    (Interceptor scope (configured (Some mapperOk) (Some allowAll))
       bearerCtx startRequest startInfo echo 0).2
    = before ++ [EvHandler (enriched bearerCtx (Some "tokA") "tokA")
                   startRequest answer] /\
    handlerCalls before = [] /\
    (Interceptor scope (configured (Some mapperOk) (Some allowAll))
       bearerCtx startRequest startInfo echo 0).1.1 = Done answer.
Proof.
  pose (run := Interceptor scope (configured (Some mapperOk) (Some allowAll))
                 bearerCtx startRequest startInfo echo 0).
  assert (Hrun : run = (run.1.1, run.1.2, run.2)) by (vm_compute; reflexivity).
  assert (Hin : In (EvAuthorize (enriched bearerCtx (Some "tokA") "tokA")
                      (Some "tokA") (targetOf startRequest startInfo)
                      ({| Decision := DecisionAllow; Reason := "" |}, None))
                   run.2)
    by (vm_compute; right; left; reflexivity).
  exact (allowed_call_is_forwarded scope _ _ _ _ _ _ _ _ _ _ _ _ _
           Hrun Hin eq_refl).
Defined.

(** X9 at a call that is denied without a reason. *)
Lemma denied_call_carries_the_reason_witness :
  (Interceptor scope (configured (Some mapperOk) (Some denySilently))
     bearerCtx startRequest startInfo echo 0).1.1
  = Done (None, Some (PermissionDenied "Request unauthorized." "")) /\
  handlerCalls
    (Interceptor scope (configured (Some mapperOk) (Some denySilently))
       bearerCtx startRequest startInfo echo 0).2 = [].
Proof.
  pose (run := Interceptor scope
                 (configured (Some mapperOk) (Some denySilently))
                 bearerCtx startRequest startInfo echo 0).
  assert (Hrun : run = (run.1.1, run.1.2, run.2)) by (vm_compute; reflexivity).
  assert (Hin : In (EvAuthorize (enriched bearerCtx (Some "tokA") "tokA")
                      (Some "tokA") (targetOf startRequest startInfo)
                      ({| Decision := DecisionDeny; Reason := "" |}, None))
                   run.2)
    by (vm_compute; right; left; reflexivity).
  exact (denied_call_carries_the_reason scope _ _ _ _ _ _ _ _ _ _ _ _ _
           Hrun Hin eq_refl).
Defined.

(** X10 at an allowed call whose context carries a request id. *)
Lemma context_and_request_are_preserved_witness :
  In (enriched extrasCtx (Some "tokA") "tokA")
     (contextsPassed
        (Interceptor scope (configured (Some mapperOk) (Some allowAll))
           extrasCtx startRequest startInfo echo 0).2) /\
  Value (enriched extrasCtx (Some "tokA") "tokA") (OtherKey "request-id")
  = Some (StringValue "r-17").
Proof.
  pose (run := Interceptor scope (configured (Some mapperOk) (Some allowAll))
                 extrasCtx startRequest startInfo echo 0).
  assert (Hrun : run = (run.1.1, run.1.2, run.2)) by (vm_compute; reflexivity).
  assert (Hin : In (enriched extrasCtx (Some "tokA") "tokA")
                   (contextsPassed run.2))
    by (vm_compute; left; reflexivity).
  split; [exact Hin|].
  destruct (context_and_request_are_preserved scope _ _ _ _ _ _ _ _ _ Hrun)
    as (Hctx & _ & _).
  destruct (Hctx _ Hin) as (_ & _ & Hother).
  rewrite Hother. reflexivity.
Defined.

(** X11 at an allowed call with a bearer token. *)
Lemma mapped_claims_reach_authorizer_witness :
  authorizerCalls
    (Interceptor scope (configured (Some mapperOk) (Some allowAll))
       bearerCtx startRequest startInfo echo 0).2
  = [(enriched bearerCtx (Some "tokA") "tokA", Some "tokA",
      targetOf startRequest startInfo)].
Proof.
  pose (run := Interceptor scope (configured (Some mapperOk) (Some allowAll))
                 bearerCtx startRequest startInfo echo 0).
  assert (Hrun : run = (run.1.1, run.1.2, run.2)) by (vm_compute; reflexivity).
  assert (Hin : In (EvGetClaims
                      {| AuthToken := "tokA"; TLSSubject := None;
                         TLSConnection := None; ExtraData := "";
                         Audience := "" |} (Some "tokA", None)) run.2)
    by (vm_compute; left; reflexivity).
  exact (mapped_claims_reach_authorizer scope _ _ _ _ _ _ _ _ _ _ _
           Hrun Hin).
Defined.

(** X12 at a call with a bearer token whose mapper fails. *)
Lemma mapper_failure_ends_the_call_witness :
  authorizerCalls
    (Interceptor scope (configured (Some mapperFailing) (Some allowAll))
       bearerCtx startRequest startInfo echo 0).2 = [] /\
  metricHandles
    (Interceptor scope (configured (Some mapperFailing) (Some allowAll))
       bearerCtx startRequest startInfo echo 0).2 = [].
Proof.
  pose (run := Interceptor scope
                 (configured (Some mapperFailing) (Some allowAll))
                 bearerCtx startRequest startInfo echo 0).
  assert (Hrun : run = (run.1.1, run.1.2, run.2)) by (vm_compute; reflexivity).
  assert (Hin : In (EvGetClaims
                      {| AuthToken := "tokA"; TLSSubject := None;
                         TLSConnection := None; ExtraData := "";
                         Audience := "" |}
                      (None, Some (OtherError "token signature invalid")))
                   run.2)
    by (vm_compute; left; reflexivity).
  destruct (mapper_failure_ends_the_call scope _ _ _ _ _ _ _ _ _ _ _ _
              Hrun Hin) as (Ha & Hm & _).
  split; [exact Ha|exact Hm].
Defined.

(** X13 at an interceptor built without header names. *)
Lemma constructed_interceptor_reads_named_headers_witness :
  In (EvGetClaims
        {| AuthToken := "tokA"; TLSSubject := None; TLSConnection := None;
           ExtraData := "x1"; Audience := "" |} (Some "tokA", None))
     (Interceptor scope
        (NewAuthorizationInterceptor (Some mapperOk) (Some allowAll)
           {| tags := [] |} {| loggerName := "frontend" |} None "" "")
        extrasCtx startRequest startInfo echo 0).2 /\
  "tokA"
  = default ""
      (head (default []
               (({[ "authorization" := ["tokA"; "tokB"];
                    "authorization-extras" := ["x1"] ]} : MD)
                  !! "authorization"))).
Proof.
  pose (run := Interceptor scope
                 (NewAuthorizationInterceptor (Some mapperOk) (Some allowAll)
                    {| tags := [] |} {| loggerName := "frontend" |} None "" "")
                 extrasCtx startRequest startInfo echo 0).
  assert (Hrun : run = (run.1.1, run.1.2, run.2)) by (vm_compute; reflexivity).
  assert (Hin : In (EvGetClaims
                      {| AuthToken := "tokA"; TLSSubject := None;
                         TLSConnection := None; ExtraData := "x1";
                         Audience := "" |} (Some "tokA", None)) run.2)
    by (vm_compute; left; reflexivity).
  split; [exact Hin|].
  exact (proj1 (constructed_interceptor_reads_named_headers scope
                  _ _ _ _ _ "" "" _ _ _ _ _ _ _ _ _ _ _
                  Hrun eq_refl Hin)).
Defined.

(** * Properties of the ringpop service *)

Section RingpopProperties.

Import Ringpop.

Context {Env RetryPolicy : Type}.
Variable pkg : Imports Env RetryPolicy.

(** ** The calls *)

Lemma bootstrap_event (r : service) retriever interval env0 :
  exists attempts ret env1,
    ThrottleRetry pkg (op pkg r retriever) (bootstrapPolicy pkg interval) env0
    = (ret, env1, attempts) /\
    bootstrap pkg r retriever interval env0
    = (Wrap "exhausted all retries: " <$> ret, env1,
       [EvThrottleRetry (bootstrapPolicy pkg interval) attempts ret]).
Proof.
  unfold bootstrap.
  destruct (ThrottleRetry pkg (op pkg r retriever)
              (bootstrapPolicy pkg interval) env0) as [[[e|] env1] attempts];
    do 3 eexists; split; reflexivity.
Qed.

Lemma swap_hit (r : service) old new :
  status r = old ->
  CompareAndSwapInt32 r old new = (true, set_status r new).
Proof. intros <-. unfold CompareAndSwapInt32. rewrite Z.eqb_refl. reflexivity. Qed.

Lemma swap_miss (r : service) old new :
  status r <> old -> CompareAndSwapInt32 r old new = (false, r).
Proof.
  intros H. unfold CompareAndSwapInt32.
  destruct (Z.eqb_spec (status r) old); [contradiction|reflexivity].
Qed.

(** ** One goroutine *)

Lemma Lifecycle_perform x c :
  distinctStatus pkg -> Lifecycle pkg x -> Lifecycle pkg (perform pkg x c).
Proof.
  intros (Hab & Hac & Hbc) L. destruct c as [retriever interval|]; simpl.
  - unfold start. destruct L as [Hs Hd Hr|p at' ret later Hs Hd Hr Hl
                                 |p at' ret later Hs Hd Hr Hl].
    + rewrite (swap_hit _ _ _ Hs).
      destruct (bootstrap_event (set_status (svc x) (DaemonStatusStarted pkg))
                  retriever interval (env x))
        as (attempts & ret & env1 & _ & ->).
      eapply life_started; simpl.
      * reflexivity.
      * rewrite Hd. reflexivity.
      * rewrite Hr. reflexivity.
      * constructor.
    + rewrite swap_miss by congruence.
      eapply life_started; simpl;
        [exact Hs|rewrite app_nil_r; exact Hd| |].
      * rewrite Hr. rewrite app_comm_cons. reflexivity.
      * apply Forall_app. split; [exact Hl|repeat constructor].
    + rewrite swap_miss by congruence.
      eapply life_stopped; simpl;
        [exact Hs|rewrite app_nil_r; exact Hd| |].
      * rewrite Hr. rewrite app_comm_cons. reflexivity.
      * apply Forall_app. split; [exact Hl|repeat constructor].
  - unfold stop. destruct L as [Hs Hd Hr|p at' ret later Hs Hd Hr Hl
                                |p at' ret later Hs Hd Hr Hl].
    + rewrite swap_miss by congruence.
      apply life_initialized; simpl; [exact Hs| |exact Hr].
      rewrite Hd. reflexivity.
    + rewrite (swap_hit _ _ _ Hs).
      eapply life_stopped; simpl; [reflexivity| |exact Hr|exact Hl].
      rewrite Hd. reflexivity.
    + rewrite swap_miss by congruence.
      eapply life_stopped; simpl; [exact Hs| |exact Hr|exact Hl].
      rewrite app_nil_r. exact Hd.
Qed.

Lemma Lifecycle_performAll calls x :
  distinctStatus pkg -> Lifecycle pkg x ->
  Lifecycle pkg (performAll pkg x calls).
Proof.
  intros Hd. revert x. unfold performAll.
  induction calls as [|c calls IH]; intros x L; simpl; [exact L|].
  apply IH, Lifecycle_perform; assumption.
Qed.

Lemma Lifecycle_fresh maxJoinDuration env0 :
  Lifecycle pkg (fresh pkg maxJoinDuration env0).
Proof. apply life_initialized; reflexivity. Qed.

(** X14.  Called from one goroutine, in whatever order and however often,
    [start] and [stop] take a new service through its life once and in
    order: it has done nothing while its status is initialized, it has
    entered the retry loop of [bootstrap] exactly once when its status is
    started, and it has done that and then destroyed the ringpop instance
    exactly once when its status is stopped; the status is never anything
    else. *)
Theorem service_lives_once maxJoinDuration env0 calls :
  distinctStatus pkg ->
  let x := performAll pkg (fresh pkg maxJoinDuration env0) calls in
  (status (svc x) = DaemonStatusInitialized pkg /\ done x = []) \/
  (status (svc x) = DaemonStatusStarted pkg /\
   exists policy attempts ret,
     done x = [EvThrottleRetry policy attempts ret]) \/
  (status (svc x) = DaemonStatusStopped pkg /\
   exists policy attempts ret,
     done x = [EvThrottleRetry policy attempts ret; EvDestroy]).
Proof.
  intros Hd. cbv zeta.
  destruct (Lifecycle_performAll calls _ Hd
              (Lifecycle_fresh maxJoinDuration env0))
    as [Hs Hdone _|p at' ret later Hs Hdone _ _|p at' ret later Hs Hdone _ _].
  - left. split; assumption.
  - right; left. split; [assumption|]. do 3 eexists. exact Hdone.
  - right; right. split; [assumption|]. do 3 eexists. exact Hdone.
Qed.


(** X16.  Stopped is final: on a service whose status is stopped no sequence
    of [start] and [stop] calls changes the service or its environment or
    does anything, and every [start] among them returns [nil]. *)
Theorem stopped_is_final (x : Run) calls :
  distinctStatus pkg ->
  status (svc x) = DaemonStatusStopped pkg ->
  let y := performAll pkg x calls in
  svc y = svc x /\ env y = env x /\ done y = done x /\
  exists later, returned y = returned x ++ later /\ Forall (eq None) later.
Proof.
  intros (Hab & Hac & Hbc). revert x. unfold performAll.
  induction calls as [|c calls IH]; intros x Hs; simpl.
  - repeat split. exists []. split; [symmetry; apply app_nil_r|constructor].
  - assert (Hp : svc (perform pkg x c) = svc x /\
                 env (perform pkg x c) = env x /\
                 done (perform pkg x c) = done x /\
                 exists one, returned (perform pkg x c) = returned x ++ one /\
                             Forall (eq None) one).
    { destruct c as [retriever interval|]; simpl.
      - unfold start. rewrite swap_miss by congruence. simpl.
        repeat split; [apply app_nil_r|].
        exists [None]. split; [reflexivity|repeat constructor].
      - unfold stop. rewrite swap_miss by congruence. simpl.
        repeat split; [apply app_nil_r|].
        exists []. split; [symmetry; apply app_nil_r|constructor]. }
    destruct Hp as (Hsvc & Henv & Hdone & one & Hret & Hone).
    destruct (IH (perform pkg x c)) as (H1 & H2 & H3 & later & H4 & H5).
    { rewrite Hsvc. exact Hs. }
    rewrite H1, H2, H3, H4, Hsvc, Henv, Hdone, Hret.
    repeat split. exists (one ++ later).
    split; [symmetry; apply app_assoc|apply Forall_app; split; assumption].
Qed.

(** ** Several goroutines *)

Lemma count_app {A} (p : A -> bool) l1 l2 :
  count p (l1 ++ l2) = count p l1 + count p l2.
Proof. induction l1 as [|x l1 IH]; simpl; [reflexivity|rewrite IH; lia]. Qed.

(** Replacing an element moves the count by the difference of the two. *)
Lemma count_insert {A} (p : A -> bool) (l : list A) i x y :
  l !! i = Some y ->
  count p (<[i := x]> l) + (if p y then 1 else 0)
  = count p l + (if p x then 1 else 0).
Proof.
  revert i. induction l as [|z l IH]; intros [|i] H; try discriminate.
  - injection H as ->. simpl. lia.
  - simpl in *. specialize (IH i H). lia.
Qed.

Lemma count_entering (gs : list (Goroutine (Env:=Env))) :
  Forall entering gs -> count inBootstrap gs = 0 /\ count inDestroy gs = 0.
Proof.
  induction 1 as [|g gs Hg _ [IH1 IH2]]; [split; reflexivity|].
  destruct g; try contradiction; simpl; auto.
Qed.

Lemma Exclusive_step x i :
  distinctStatus pkg -> Exclusive pkg x -> Exclusive pkg (step pkg x i).
Proof.
  intros (Hab & Hac & Hbc) E. unfold step.
  destruct (goroutines x !! i) as [g|] eqn:Hg; [|exact E].
  unfold Exclusive in *.
  destruct g as [retriever interval|retriever interval| | |err]; [| | | |exact E].
  - pose proof (count_insert inBootstrap _ _ (Returned None) _ Hg) as B0.
    pose proof (count_insert inDestroy _ _ (Returned None) _ Hg) as D0.
    pose proof (count_insert inBootstrap _ _
                  (InBootstrap retriever interval) _ Hg) as B1.
    pose proof (count_insert inDestroy _ _
                  (InBootstrap retriever interval) _ Hg) as D1.
    simpl in B0, D0, B1, D1.
    destruct E as [(Hs & Hl & Hd)|[(Hs & Hl & Hd)|(Hs & Hl & Hd)]].
    + rewrite (swap_hit _ _ _ Hs). simpl. right; left.
      split; [reflexivity|]. lia.
    + rewrite swap_miss by congruence. simpl. right; left.
      split; [exact Hs|]. lia.
    + rewrite swap_miss by congruence. simpl. right; right.
      split; [exact Hs|]. lia.
  - pose proof (count_insert inBootstrap _ _ (Returned None) _ Hg) as B0.
    pose proof (count_insert inDestroy _ _ (Returned None) _ Hg) as D0.
    simpl in B0, D0.
    destruct (bootstrap_event (shared_svc x) retriever interval (shared_env x))
      as (attempts & ret & env1 & _ & ->). simpl.
    pose proof (count_insert inBootstrap _ _
                  (Returned (Wrap "exhausted all retries: " <$> ret)) _ Hg)
      as B1.
    pose proof (count_insert inDestroy _ _
                  (Returned (Wrap "exhausted all retries: " <$> ret)) _ Hg)
      as D1.
    simpl in B1, D1. rewrite !count_app. simpl.
    destruct E as [(Hs & Hl & Hd)|[(Hs & Hl & Hd)|(Hs & Hl & Hd)]];
      [left|right; left|right; right]; (split; [exact Hs|]); lia.
  - pose proof (count_insert inBootstrap _ _ (Returned None) _ Hg) as B0.
    pose proof (count_insert inDestroy _ _ (Returned None) _ Hg) as D0.
    pose proof (count_insert inBootstrap _ _ InDestroy _ Hg) as B1.
    pose proof (count_insert inDestroy _ _ InDestroy _ Hg) as D1.
    simpl in B0, D0, B1, D1.
    destruct E as [(Hs & Hl & Hd)|[(Hs & Hl & Hd)|(Hs & Hl & Hd)]].
    + rewrite swap_miss by congruence. simpl. left.
      split; [exact Hs|]. lia.
    + rewrite (swap_hit _ _ _ Hs). simpl. right; right.
      split; [reflexivity|]. lia.
    + rewrite swap_miss by congruence. simpl. right; right.
      split; [exact Hs|]. lia.
  - pose proof (count_insert inBootstrap _ _ (Returned None) _ Hg) as B0.
    pose proof (count_insert inDestroy _ _ (Returned None) _ Hg) as D0.
    simpl in B0, D0. simpl. rewrite !count_app. simpl.
    destruct E as [(Hs & Hl & Hd)|[(Hs & Hl & Hd)|(Hs & Hl & Hd)]];
      [left|right; left|right; right]; (split; [exact Hs|]); lia.
Qed.

Lemma Exclusive_schedule steps x :
  distinctStatus pkg -> Exclusive pkg x -> Exclusive pkg (schedule pkg x steps).
Proof.
  intros Hd. revert x. unfold schedule.
  induction steps as [|i steps IH]; intros x E; simpl; [exact E|].
  apply IH, Exclusive_step; assumption.
Qed.

(** X17.  However many goroutines call [start] and [stop] on a new service
    and however their steps interleave, at most one of them ever is in or
    past the retry loop of [bootstrap] and at most one in or past the
    destruction of the ringpop instance: the loop is entered at most once
    and the instance is destroyed at most once, and only when the status has
    left initialized, respectively reached stopped. *)
Theorem start_and_stop_run_once maxJoinDuration env0 pool steps :
  distinctStatus pkg ->
  Forall entering pool ->
  let x := schedule pkg
             {| shared_svc := newService pkg maxJoinDuration;
                shared_env := env0; shared_done := [];
                goroutines := pool |} steps in
  count inBootstrap (goroutines x) + count isThrottleRetry (shared_done x)
  = (if decide (status (shared_svc x) = DaemonStatusInitialized pkg)
     then 0 else 1) /\
  count inDestroy (goroutines x) + count isDestroy (shared_done x)
  = (if decide (status (shared_svc x) = DaemonStatusStopped pkg)
     then 1 else 0).
Proof.
  intros Hd Hpool x.
  assert (E : Exclusive pkg x).
  { apply Exclusive_schedule; [exact Hd|].
    destruct (count_entering pool Hpool) as [Hb Hx].
    left. simpl. rewrite Hb, Hx. repeat split. }
  destruct Hd as (Hab & Hac & Hbc).
  destruct E as [(Hs & Hl & Hx)|[(Hs & Hl & Hx)|(Hs & Hl & Hx)]];
    cbv zeta in Hl, Hx; rewrite Hl, Hx, Hs;
    repeat case_decide; try congruence; split; reflexivity.
Qed.

(** The steps of a goroutine, one by one. *)
Lemma step_start_swaps x i retriever interval :
  goroutines x !! i = Some (AtStart retriever interval) ->
  status (shared_svc x) = DaemonStatusInitialized pkg ->
  step pkg x i
  = {| shared_svc := set_status (shared_svc x) (DaemonStatusStarted pkg);
       shared_env := shared_env x; shared_done := shared_done x;
       goroutines := <[i := InBootstrap retriever interval]> (goroutines x) |}.
Proof. intros Hg Hs. unfold step. rewrite Hg, (swap_hit _ _ _ Hs). reflexivity. Qed.

Lemma step_stop_swaps x i :
  goroutines x !! i = Some AtStop ->
  status (shared_svc x) = DaemonStatusStarted pkg ->
  step pkg x i
  = {| shared_svc := set_status (shared_svc x) (DaemonStatusStopped pkg);
       shared_env := shared_env x; shared_done := shared_done x;
       goroutines := <[i := InDestroy]> (goroutines x) |}.
Proof. intros Hg Hs. unfold step. rewrite Hg, (swap_hit _ _ _ Hs). reflexivity. Qed.

Lemma step_destroys x i :
  goroutines x !! i = Some InDestroy ->
  step pkg x i
  = {| shared_svc := shared_svc x; shared_env := Destroy pkg (shared_env x);
       shared_done := shared_done x ++ [EvDestroy];
       goroutines := <[i := Returned None]> (goroutines x) |}.
Proof. intros Hg. unfold step. rewrite Hg. reflexivity. Qed.

Lemma step_bootstraps x i retriever interval :
  goroutines x !! i = Some (InBootstrap retriever interval) ->
  exists attempts ret env1,
    ThrottleRetry pkg (op pkg (shared_svc x) retriever)
      (bootstrapPolicy pkg interval) (shared_env x)
    = (ret, env1, attempts) /\
    step pkg x i
    = {| shared_svc := shared_svc x; shared_env := env1;
         shared_done :=
           shared_done x
           ++ [EvThrottleRetry (bootstrapPolicy pkg interval) attempts ret];
         goroutines :=
           <[i := Returned (Wrap "exhausted all retries: " <$> ret)]>
             (goroutines x) |}.
Proof.
  intros Hg. unfold step. rewrite Hg.
  destruct (bootstrap_event (shared_svc x) retriever interval (shared_env x))
    as (attempts & ret & env1 & Hloop & ->).
  exists attempts, ret, env1. split; [exact Hloop|reflexivity].
Qed.

(** X18.  The swap of [start] comes before its bootstrap, so a [stop] from
    another goroutine can fall in between: the ringpop instance is then
    destroyed first and the retry loop of [bootstrap] runs on the destroyed
    instance. *)
Theorem stop_can_overtake_bootstrap maxJoinDuration env0 pool i j
    retriever interval :
  pool !! i = Some (AtStart retriever interval) ->
  pool !! j = Some AtStop ->
  let x := schedule pkg
             {| shared_svc := newService pkg maxJoinDuration;
                shared_env := env0; shared_done := [];
                goroutines := pool |} [i; j; j; i] in
  exists attempts ret env1,
    ThrottleRetry pkg
      (op pkg (set_status (newService pkg maxJoinDuration)
                 (DaemonStatusStopped pkg)) retriever)
      (bootstrapPolicy pkg interval) (Destroy pkg env0)
    = (ret, env1, attempts) /\
    shared_done x
    = [EvDestroy;
       EvThrottleRetry (bootstrapPolicy pkg interval) attempts ret] /\
    shared_env x = env1 /\
    status (shared_svc x) = DaemonStatusStopped pkg.
Proof.
  intros Hi Hj. cbv zeta.
  assert (Hne : i <> j) by (intros ->; congruence).
  assert (Hli : i < length pool) by (apply lookup_lt_Some in Hi; exact Hi).
  assert (Hlj : j < length pool) by (apply lookup_lt_Some in Hj; exact Hj).
  unfold schedule. cbn [fold_left].
  match goal with |- context [step pkg ?y i] =>
    rewrite (step_start_swaps y i retriever interval Hi eq_refl)
  end.
  cbn [goroutines shared_svc shared_env shared_done].
  match goal with |- context [step pkg ?y j] =>
    rewrite (step_stop_swaps y j)
      by (cbn [goroutines shared_svc];
          first [rewrite list_lookup_insert_ne by exact Hne; exact Hj
                |reflexivity])
  end.
  cbn [goroutines shared_svc shared_env shared_done].
  match goal with |- context [step pkg ?y j] =>
    rewrite (step_destroys y j)
      by (cbn [goroutines];
          rewrite list_lookup_insert_eq by (rewrite length_insert; exact Hlj);
          reflexivity)
  end.
  cbn [goroutines shared_svc shared_env shared_done].
  match goal with |- context [step pkg ?y i] =>
    destruct (step_bootstraps y i retriever interval)
      as (attempts & ret & env1 & Hloop & ->)
  end.
  { cbn [goroutines].
    rewrite !list_lookup_insert_ne by (intros H; apply Hne; symmetry; exact H).
    apply list_lookup_insert_eq. exact Hli. }
  exists attempts, ret, env1. repeat split. exact Hloop.
Qed.

End RingpopProperties.

(** ** The properties of the service in the sample environment *)

Import Ringpop.

Lemma sample_status_distinct : distinctStatus samplePkg.
Proof. repeat split; discriminate. Qed.

(** X14 on a service that is stopped early, started twice, stopped and
    started again. *)
Lemma service_lives_once_witness :
  distinctStatus samplePkg /\
  status (svc (performAll samplePkg (fresh samplePkg 30 0)
                 [CallStop; CallStart twoSeeds 100; CallStart noSeeds 100;
                  CallStop; CallStart twoSeeds 1])) = 2%Z /\
  exists policy attempts ret,
    done (performAll samplePkg (fresh samplePkg 30 0)
            [CallStop; CallStart twoSeeds 100; CallStart noSeeds 100;
             CallStop; CallStart twoSeeds 1])
    = [EvThrottleRetry policy attempts ret; EvDestroy].
Proof.
  split; [exact sample_status_distinct|].
  destruct (service_lives_once samplePkg 30 0
              [CallStop; CallStart twoSeeds 100; CallStart noSeeds 100;
               CallStop; CallStart twoSeeds 1] sample_status_distinct)
    as [(Hs & _)|[(Hs & _)|(Hs & Hd)]].
  - vm_compute in Hs. discriminate Hs.
  - vm_compute in Hs. discriminate Hs.
  - split; [exact Hs|exact Hd].
Defined.


(** X16 on a service that was started and stopped. *)
Lemma stopped_is_final_witness :
  distinctStatus samplePkg /\
  status (svc (performAll samplePkg (fresh samplePkg 30 0)
                 [CallStart twoSeeds 100; CallStop])) = 2%Z /\
  done (performAll samplePkg
          (performAll samplePkg (fresh samplePkg 30 0)
             [CallStart twoSeeds 100; CallStop])
          [CallStart noSeeds 1; CallStop; CallStart twoSeeds 5])
  = done (performAll samplePkg (fresh samplePkg 30 0)
            [CallStart twoSeeds 100; CallStop]).
Proof.
  split; [exact sample_status_distinct|].
  assert (Hs : status (svc (performAll samplePkg (fresh samplePkg 30 0)
                              [CallStart twoSeeds 100; CallStop]))
               = DaemonStatusStopped samplePkg)
    by (vm_compute; reflexivity).
  split; [exact Hs|].
  destruct (stopped_is_final samplePkg _
              [CallStart noSeeds 1; CallStop; CallStart twoSeeds 5]
              sample_status_distinct Hs) as (_ & _ & Hd & _).
  exact Hd.
Defined.

(** X17 on four goroutines, two starting and two stopping, that all run to
    their end. *)
Lemma start_and_stop_run_once_witness :
  distinctStatus samplePkg /\
  Forall entering
    [AtStart twoSeeds 100; AtStop; AtStart noSeeds 5; AtStop] /\
  count isThrottleRetry
    (shared_done
       (schedule samplePkg
          {| shared_svc := newService samplePkg 30; shared_env := 0;
             shared_done := [];
             goroutines :=
               [AtStart twoSeeds 100; AtStop; AtStart noSeeds 5; AtStop] |}
          [2; 3; 0; 1; 3; 2; 1; 0])) <= 1.
Proof.
  split; [exact sample_status_distinct|].
  assert (Hpool : Forall entering
                    [AtStart twoSeeds 100; AtStop; AtStart noSeeds 5; AtStop])
    by (repeat constructor).
  split; [exact Hpool|].
  destruct (start_and_stop_run_once samplePkg 30 0 _
              [2; 3; 0; 1; 3; 2; 1; 0] sample_status_distinct Hpool)
    as (Hloops & _).
  destruct (decide _) in Hloops; lia.
Defined.

(** X18 on a stopping and a starting goroutine. *)
Lemma stop_can_overtake_bootstrap_witness :
  [AtStop; AtStart twoSeeds 100] !! 1 = Some (AtStart twoSeeds 100) /\
  [AtStop; AtStart twoSeeds 100] !! 0 = Some (AtStop (Env:=nat)) /\
  head (shared_done
          (schedule samplePkg
             {| shared_svc := newService samplePkg 30; shared_env := 0;
                shared_done := [];
                goroutines := [AtStop; AtStart twoSeeds 100] |}
             [1; 0; 0; 1]))
  = Some EvDestroy.
Proof.
  split; [reflexivity|]. split; [reflexivity|].
  destruct (stop_can_overtake_bootstrap samplePkg 30 0
              [AtStop; AtStart twoSeeds 100] 1 0 twoSeeds 100
              eq_refl eq_refl) as (attempts & ret & env1 & _ & Hd & _).
  rewrite Hd. reflexivity.
Defined.
